(** * GFF statistics: the line parser and the aggregator of [gff_stats.py]

    A shallow embedding of [parse_gff_line], [calculate_length] and
    [process_gff], with the properties of the parsing and aggregation
    pipeline.

    Conventions of the embedding.
    - A Python [str] is a [string]; a character is a code point below 256,
      so the two whitespace code points U+0085 and U+00A0 are present and
      the whitespace and digits beyond U+00FF are not.
    - A Python [int] is a [Z].
    - A Python [float] is a binary64 number, a [spec_float] with precision
      53 and maximal exponent 1024.
    - A [dict] used as a map is a [gmap]; the order of its keys is not
      modelled.
    - A raised exception is the [Raise] branch of [result].
    - The file handed to [process_gff] is the list of the lines that
      iterating over it yields; opening and decoding the file, and the
      errors these can raise, are not part of the embedding. *)

From Stdlib Require Import ZArith Lia Ascii String List.
From Stdlib Require Import Floats.SpecFloat.
From stdpp Require Import gmap strings list fin_maps.

Local Open Scope Z_scope.

(** ** Exceptions *)

Inductive exn : Type :=
  | ValueError
  | ZeroDivisionError
  | OverflowError.

Inductive result (A : Type) : Type :=
  | Ok (a : A)
  | Raise (e : exn).

Arguments Ok {A} a.
Arguments Raise {A} e.

Global Instance result_ret : MRet result := fun A a => Ok a.

Global Instance result_bind : MBind result := fun A B k r =>
  match r with
  | Ok a => k a
  | Raise e => Raise e
  end.

Global Instance result_fmap : FMap result := fun A B f r =>
  match r with
  | Ok a => Ok (f a)
  | Raise e => Raise e
  end.

(** [for x in l: s = f(s, x)] where the body may raise. *)
Fixpoint foldM {A S : Type} (f : S -> A -> result S) (s : S) (l : list A)
  : result S :=
  match l with
  | [] => Ok s
  | x :: l' => s' ← f s x; foldM f s' l'
  end.

(** ** Strings *)

Definition tab : ascii := "009"%char.
Definition newline : ascii := "010"%char.

Definition code (c : ascii) : Z := Z.of_N (N_of_ascii c).

(** [str.isspace] on one character: the code points that [str.strip]
    removes. *)
Definition isspace (c : ascii) : bool :=
  let n := code c in
  ((9 <=? n) && (n <=? 13)) || ((28 <=? n) && (n <=? 32))
  || (n =? 133) || (n =? 160).

Fixpoint lstrip (s : string) : string :=
  match s with
  | String c s' => if isspace c then lstrip s' else s
  | EmptyString => EmptyString
  end.

Fixpoint rstrip (s : string) : string :=
  match s with
  | String c s' =>
      match rstrip s' with
      | EmptyString => if isspace c then EmptyString else String c EmptyString
      | r => String c r
      end
  | EmptyString => EmptyString
  end.

(** [line.strip()] *)
Definition strip (s : string) : string := rstrip (lstrip s).

(** [line.startswith(c)] for a one-character prefix. *)
Definition startswith (c : ascii) (s : string) : bool :=
  match s with
  | String c' _ => bool_decide (c' = c)
  | EmptyString => false
  end.

(** [line.split(sep)] for a one-character separator: never empty, and an
    empty field between two separators is kept. *)
Fixpoint split (sep : ascii) (s : string) : list string :=
  match s with
  | EmptyString => [EmptyString]
  | String c s' =>
      if bool_decide (c = sep) then EmptyString :: split sep s'
      else match split sep s' with
           | f :: fs => String c f :: fs
           | [] => [String c EmptyString]
           end
  end.

(** [sep.join(fields)], used to write lines down. *)
Fixpoint join (sep : ascii) (fields : list string) : string :=
  match fields with
  | [] => EmptyString
  | [f] => f
  | f :: fs => f +:+ String sep (join sep fs)
  end.

Definition tsv (fields : list string) : string := join tab fields.
Definition tsv_line (fields : list string) : string :=
  tsv fields +:+ String newline EmptyString.

(** [c in s] *)
Fixpoint contains (c : ascii) (s : string) : bool :=
  match s with
  | String c' s' => bool_decide (c' = c) || contains c s'
  | EmptyString => false
  end.

(** ** [int(str)] *)

(** The whitespace that [int] skips around the number. *)
Definition int_isspace (c : ascii) : bool :=
  let n := code c in
  ((9 <=? n) && (n <=? 13)) || (n =? 32) || (n =? 133) || (n =? 160).

Definition digit_value (c : ascii) : option Z :=
  let n := code c in
  if (48 <=? n) && (n <=? 57) then Some (n - 48) else None.

(** The default of [sys.get_int_max_str_digits()]. *)
Definition int_max_str_digits : Z := 4300.

Fixpoint skip_int_space (s : string) : string :=
  match s with
  | String c s' => if int_isspace c then skip_int_space s' else s
  | EmptyString => EmptyString
  end.

(** Digits and single underscores between them. [prev] tells that the
    previous character was an underscore, [acc] is the value read so far and
    [nd] the number of digits read so far. The scan stops at the first
    character that is neither, and fails on a doubled or a trailing
    underscore. *)
Fixpoint scan_digits (s : string) (prev : bool) (acc nd : Z)
  : option (Z * Z * string) :=
  match s with
  | String c s' =>
      match digit_value c with
      | Some d => scan_digits s' false (10 * acc + d) (nd + 1)
      | None =>
          if bool_decide (c = "_"%char)
          then (if prev then None else scan_digits s' true acc nd)
          else (if prev then None else Some (acc, nd, s))
      end
  | EmptyString => if prev then None else Some (acc, nd, EmptyString)
  end.

Definition py_int (s : string) : result Z :=
  let s1 := skip_int_space s in
  let '(neg, s2) :=
    match s1 with
    | String "+"%char r => (false, r)
    | String "-"%char r => (true, r)
    | _ => (false, s1)
    end in
  if startswith "_"%char s2 then Raise ValueError
  else
    match scan_digits s2 false 0 0 with
    | None => Raise ValueError
    | Some (v, nd, rest) =>
        if nd =? 0 then Raise ValueError
        else if negb (bool_decide (skip_int_space rest = EmptyString))
        then Raise ValueError
        else if int_max_str_digits <? nd then Raise ValueError
        else Ok (if neg then - v else v)
    end.

(** ** Feature records *)

Record gff_record : Type := mk_record {
  seqname : string;
  source : string;
  feature : string;
  start : Z;
  end_ : Z;
  score : string;
  strand : string;
  frame : string;
  attributes : string
}.

(** [fields[i]], on a list known to be long enough. *)
Definition field (fields : list string) (i : nat) : string :=
  nth i fields EmptyString.

Definition parse_gff_line (line : string) : result (option gff_record) :=
  let line := strip line in
  if bool_decide (line = EmptyString) || startswith "#"%char line then Ok None
  else
    let fields := split tab line in
    if (length fields <? 8)%nat then Ok None
    else
      s ← py_int (field fields 3);
      e ← py_int (field fields 4);
      Ok (Some {| seqname := field fields 0;
                  source := field fields 1;
                  feature := field fields 2;
                  start := s;
                  end_ := e;
                  score := field fields 5;
                  strand := field fields 6;
                  frame := field fields 7;
                  attributes :=
                    if (8 <? length fields)%nat then field fields 8
                    else EmptyString |}).

Definition calculate_length (f : gff_record) : Z := end_ f - start f + 1.

(** ** binary64 arithmetic *)

Definition float : Type := spec_float.

Definition float_prec : Z := 53.
Definition float_emax : Z := 1024.
(** The exponent of the least positive binary64 number, [2 ^ -1074]. *)
Definition float_emin : Z := 3 - float_emax - float_prec.

(** The integer nearest to [num / den], the even one of the two at a tie;
    [den] is positive. *)
Definition round_half_even (num den : Z) : Z :=
  let q := num / den in
  let r := num mod den in
  match 2 * r ?= den with
  | Lt => q
  | Gt => q + 1
  | Eq => if Z.even q then q else q + 1
  end.

(** [(n / d) / 2 ^ e] as a fraction of integers. *)
Definition shift_ratio (n d e : Z) : Z * Z :=
  if 0 <=? e then (n, d * 2 ^ e) else (n * 2 ^ (- e), d).

(** [floor (log2 (n / d))] for positive [n] and [d]. *)
Definition ratio_log2 (n d : Z) : Z :=
  let e0 := Z.log2 n - Z.log2 d in
  let '(a, b) := shift_ratio n d e0 in
  if a <? b then e0 - 1 else e0.

Definition finite_or_inf (s : bool) (m : positive) (e : Z) : float :=
  if e <=? float_emax - float_prec then S754_finite s m e
  else S754_infinity s.

(** The binary64 number nearest to [n / d] with sign [s], ties to the even
    mantissa (the rounding of IEEE 754); [n] and [d] are positive. A
    quotient beyond the largest finite number rounds to an infinity. *)
Definition round_ratio (s : bool) (n d : Z) : float :=
  let e := Z.max (ratio_log2 n d - (float_prec - 1)) float_emin in
  let '(a, b) := shift_ratio n d e in
  match round_half_even a b with
  | Z0 => S754_zero s
  | Zpos m =>
      if Zpos m =? 2 ^ float_prec
      then finite_or_inf s (2 ^ (Z.to_pos float_prec - 1))%positive (e + 1)
      else finite_or_inf s m e
  | Zneg _ => S754_nan
  end.

Definition is_infinity (x : float) : bool :=
  match x with
  | S754_infinity _ => true
  | _ => false
  end.

(** [a / b] on two [int]s: the correctly rounded quotient. *)
Definition int_truediv (a b : Z) : result float :=
  if b =? 0 then Raise ZeroDivisionError
  else if a =? 0 then Ok (S754_zero (b <? 0))
  else
    let q := round_ratio (xorb (a <? 0) (b <? 0)) (Z.abs a) (Z.abs b) in
    if is_infinity q then Raise OverflowError else Ok q.

(** [round(x, ndigits)] on a [float], for [0 <= ndigits <= 323]: the exact
    value of [x] is rounded to [ndigits] decimals, ties to the even last
    digit, and the float nearest to that decimal number is returned, with
    the sign of [x]. *)
Definition float_round (x : float) (ndigits : nat) : result float :=
  match x with
  | S754_finite s m e =>
      let p := 10 ^ Z.of_nat ndigits in
      let '(a, b) := shift_ratio (Zpos m * p) 1 (- e) in
      let k := round_half_even a b in
      if k =? 0 then Ok (S754_zero s)
      else
        let r := round_ratio s k p in
        if is_infinity r then Raise OverflowError else Ok r
  | _ => Ok x
  end.

(** The float that the decimal literal [k / 10 ^ ndigits] denotes, as in
    [8.3] for [k = 83] and [ndigits = 1]. *)
Definition float_of_decimal (k : Z) (ndigits : nat) : float :=
  if k =? 0 then S754_zero false
  else round_ratio (k <? 0) (Z.abs k) (10 ^ Z.of_nat ndigits).

(** [float(n)], by the rounding of the Standard Library's specification of
    binary64. *)
Definition float_of_int (n : Z) : float :=
  binary_normalize float_prec float_emax n 0 false.

(** [sum(lengths)] and [len(lengths)] *)
Definition sum (l : list Z) : Z := foldl Z.add 0 l.
Definition len {A : Type} (l : list A) : Z := Z.of_nat (length l).

(** [round(sum(lengths) / len(lengths), 1)] *)
Definition average (lengths : list Z) : result float :=
  q ← int_truediv (sum lengths) (len lengths);
  float_round q 1.

(** ** The aggregator *)

Record gff_stats : Type := mk_stats {
  total_features : Z;
  by_type : gmap string Z;
  avg_length : gmap string float;
  strand_distribution : gmap string Z
}.

(** [d[k] += 1] on a [defaultdict(int)] *)
Definition incr (k : string) (d : gmap string Z) : gmap string Z :=
  <[k := default 0 (d !! k) + 1]> d.

(** [d[k].append(x)] on a [defaultdict(list)] *)
Definition append_to (k : string) (x : Z) (d : gmap string (list Z))
  : gmap string (list Z) :=
  <[k := default [] (d !! k) ++ [x]]> d.

(** [filter_type is None or parsed['feature'] == filter_type] *)
Definition keep (filter_type : option string) (parsed : gff_record) : bool :=
  match filter_type with
  | None => true
  | Some t => bool_decide (feature parsed = t)
  end.

(** The first loop of [process_gff]: the list [features]. *)
Definition read_features (lines : list string) (filter_type : option string)
  : result (list gff_record) :=
  foldM (fun features line =>
           parsed ← parse_gff_line line;
           Ok (match parsed with
               | Some p =>
                   if keep filter_type p then features ++ [p] else features
               | None => features
               end))
        [] lines.

(** [for feature in features: d[feature[key]] += 1] *)
Definition count_by (key : gff_record -> string) (features : list gff_record)
  : gmap string Z :=
  foldl (fun d f => incr (key f) d) ∅ features.

Definition lengths_by_type (features : list gff_record)
  : gmap string (list Z) :=
  foldl (fun d f => append_to (feature f) (calculate_length f) d) ∅ features.

(** [for feature_type, lengths in lengths_by_type.items(): ...] *)
Definition avg_lengths (lbt : gmap string (list Z))
  : result (gmap string float) :=
  map_fold (fun feature_type lengths acc =>
              avg ← acc;
              x ← average lengths;
              Ok (<[feature_type := x]> avg))
           (Ok ∅) lbt.

Definition process_gff (lines : list string) (filter_type : option string)
  : result gff_stats :=
  features ← read_features lines filter_type;
  avg ← avg_lengths (lengths_by_type features);
  Ok {| total_features := len features;
        by_type := count_by feature features;
        avg_length := avg;
        strand_distribution := count_by strand features |}.

(** [sum(d.values())] *)
Definition sum_values (d : gmap string Z) : Z :=
  map_fold (fun _ v acc => acc + v) 0 d.

(** ** Notions of the statements *)

(** What one parsed line adds in front of the records of the lines after
    it. *)
Definition retain (filter_type : option string) (parsed : option gff_record)
  (rest : list gff_record) : list gff_record :=
  match parsed with
  | Some p => if keep filter_type p then p :: rest else rest
  | None => rest
  end.

(** The number of records of [fs] whose [key] is [k]. *)
Definition count_where (key : gff_record -> string) (k : string)
  (fs : list gff_record) : Z :=
  len (filter (fun f => key f = k) fs).

(** The lengths of the records of type [t], in the order of [fs]. *)
Definition lengths_of (t : string) (fs : list gff_record) : list Z :=
  calculate_length <$> filter (fun f => feature f = t) fs.

(** [avg] holds the average of every list of [lbt] and nothing else. *)
Definition averages_of (lbt : gmap string (list Z)) (avg : gmap string float)
  : Prop :=
  forall t,
    match lbt !! t with
    | Some ls => exists x, average ls = Ok x /\ avg !! t = Some x
    | None => avg !! t = None
    end.

(** [n / d < 2 ^ x], without fractions. *)
Definition below (n d x : Z) : Prop :=
  if 0 <=? x then n < d * 2 ^ x else n * 2 ^ (- x) < d.



(** The average of the specification: the arithmetic mean, rounded to one
    decimal place with ties to the even digit, as the float that this
    decimal number denotes. *)
Definition bankers_average (lengths : list Z) : float :=
  float_of_decimal (round_half_even (10 * sum lengths) (len lengths)) 1.

(** ** Fixtures *)

Definition gene (s e : string) : string :=
  tsv_line ["NC_000001"; "test"; "gene"; s; e; "."; "+"; "."; "ID=g"].

Definition gene_100_200 : string :=
  tsv_line ["NC_000001"; "test"; "gene"; "100"; "200"; "."; "+"; ".";
            "ID=test1"].

Definition commented_gene : string :=
  tsv_line ["#NC_000001"; "test"; "gene"; "100"; "200"; "."; "+"; ".";
            "ID=test1"].

Definition commented_bad_start : string :=
  tsv_line ["#NC_000001"; "test"; "gene"; "abc"; "200"; "."; "+"; ".";
            "ID=test1"].

Definition bad_start : string :=
  tsv_line ["NC_000001"; "test"; "CDS"; "abc"; "200"; "."; "+"; "."].

Fixpoint zeros (n : nat) : string :=
  match n with
  | O => EmptyString
  | S n' => String "0"%char (zeros n')
  end.

(** A record with [start = 0] and [end = - 10 ^ 400]. *)
Definition huge_reversed : string := gene "0" ("-1" +:+ zeros 400).

(** A record with [start = 0] and [end = 10 ^ 400]. *)
Definition huge_forward : string := gene "0" ("1" +:+ zeros 400).

(** Lengths 10, 10 and 5. *)
Definition three_genes : list string :=
  [gene "1" "10"; gene "20" "29"; gene "40" "44"].

(** One length 2 and nineteen lengths 1: the mean is 21 / 20 = 1.05. *)
Definition tie_lines : list string :=
  gene "1" "2" :: replicate 19 (gene "5" "5").

Definition three_strands : list string :=
  [ gene_100_200;
    tsv_line ["NC_000001"; "test"; "gene"; "300"; "400"; "."; "-"; ".";
              "ID=test2"];
    tsv_line ["NC_000001"; "test"; "CDS"; "100"; "150"; "."; "+"; "0";
              "ID=test3"] ].

(** The statistics of [three_strands]: the averages are 101.0 and 51.0. *)
Definition three_strands_stats : gff_stats :=
  {| total_features := 3;
     by_type := {[ "gene" := 2; "CDS" := 1 ]};
     avg_length := {[ "gene" := float_of_decimal 1010 1;
                      "CDS" := float_of_decimal 510 1 ]};
     strand_distribution := {[ "+" := 2; "-" := 1 ]} |}.

Definition empty_stats : gff_stats :=
  {| total_features := 0; by_type := ∅; avg_length := ∅;
     strand_distribution := ∅ |}.

(** ** Notions of the further properties *)

(** Every character of [s] is one that [str.strip] removes. *)
Fixpoint all_space (s : string) : bool :=
  match s with
  | String c s' => isspace c && all_space s'
  | EmptyString => true
  end.

(** What [parse_gff_line] makes of the fields of a trimmed line. *)
Definition parse_fields (fields : list string)
  : result (option gff_record) :=
  if bool_decide (fields = [EmptyString])
     || startswith "#"%char (hd EmptyString fields)
  then Ok None
  else if (length fields <? 8)%nat then Ok None
  else
    s ← py_int (field fields 3);
    e ← py_int (field fields 4);
    Ok (Some {| seqname := field fields 0;
                source := field fields 1;
                feature := field fields 2;
                start := s;
                end_ := e;
                score := field fields 5;
                strand := field fields 6;
                frame := field fields 7;
                attributes :=
                  if (8 <? length fields)%nat then field fields 8
                  else EmptyString |}).

(** The second half of [process_gff]: the statistics of the list
    [features]. *)
Definition statistics (features : list gff_record) : result gff_stats :=
  avg ← avg_lengths (lengths_by_type features);
  Ok {| total_features := len features;
        by_type := count_by feature features;
        avg_length := avg;
        strand_distribution := count_by strand features |}.

(** The float of an integer below [2 ^ 53] in magnitude, which is exact. *)
Definition float_of_small_int (n : Z) : float :=
  match n with
  | Z0 => S754_zero false
  | _ =>
      let e := Z.log2 (Z.abs n) - 52 in
      S754_finite (n <? 0) (Z.to_pos (Z.abs n * 2 ^ (- e))) e
  end.

(** Two outcomes of the same kind: two results related by [R], or the
    same exception. *)
Definition same_outcome {A : Type} (R : relation A) (r r' : result A)
  : Prop :=
  match r, r' with
  | Ok a, Ok a' => R a a'
  | Raise e, Raise e' => e = e'
  | _, _ => False
  end.

(** The line parses to a record of type [t]. *)
Definition line_has_type (t : string) (line : string) : bool :=
  match parse_gff_line line with
  | Ok (Some p) => bool_decide (feature p = t)
  | _ => false
  end.

(** A finite positive float with a full mantissa and an exponent of at
    least [-52]: a float that is at least 1. *)
Definition float_ge_one (x : float) : Prop :=
  match x with
  | S754_finite false m e => 2 ^ 52 <= Zpos m /\ -52 <= e
  | _ => False
  end.

(** * Properties *)

(** ** Scenarios *)

Example process_three_strands :
  process_gff three_strands None = Ok three_strands_stats.
Proof. vm_compute. reflexivity. Qed.

Example process_single_feature :
  process_gff [gene_100_200] None
  = Ok {| total_features := 1;
          by_type := {[ "gene" := 1 ]};
          avg_length := {[ "gene" := float_of_decimal 1010 1 ]};
          strand_distribution := {[ "+" := 1 ]} |}.
Proof. vm_compute. reflexivity. Qed.

Example process_empty_file : process_gff [] None = Ok empty_stats.
Proof. reflexivity. Qed.

Example process_only_comments :
  process_gff [ "##gff-version 3" +:+ String newline EmptyString;
                "##sequence-region NC_000001 1 1000"
                +:+ String newline EmptyString ] None
  = Ok empty_stats.
Proof. vm_compute. reflexivity. Qed.

Example strip_both_ends :
  strip (String tab "  a b " +:+ String newline EmptyString) = "a b".
Proof. reflexivity. Qed.

Example split_keeps_empty_fields :
  split tab (String tab (String tab EmptyString))
  = [EmptyString; EmptyString; EmptyString].
Proof. reflexivity. Qed.

Example int_rejects :
  Forall (fun s => py_int s = Raise ValueError)
    [""; " "; "+"; "+ 5"; "--5"; "_1"; "1_"; "1__0"; "5 5"; "1e3"; "0x10";
     "1.0"; String "028"%char "5"].
Proof. repeat constructor. Qed.

Example int_accepts :
  py_int "007" = Ok 7 /\ py_int "-0" = Ok 0 /\ py_int "1_0_0" = Ok 100
  /\ py_int (String tab "5" +:+ String newline EmptyString) = Ok 5
  /\ py_int (String "133"%char "5" +:+ String "160"%char EmptyString) = Ok 5.
Proof. repeat split. Qed.

Example int_digit_limit :
  py_int (String "1"%char (zeros 4299)) = Ok (10 ^ 4299)
  /\ py_int (String "1"%char (zeros 4300)) = Raise ValueError.
Proof. vm_compute. split; reflexivity. Qed.

(** On operands below [2 ^ 53] the rounded quotient is the division of the
    Standard Library's specification of binary64. *)
Example round_ratio_is_SFdiv :
  Forall (fun '(n, d) =>
            round_ratio false n d
            = SFdiv float_prec float_emax (float_of_int n) (float_of_int d))
    [(25, 3); (9, 20); (21, 20); (1, 3); (7, 1); (2 ^ 53 - 1, 2 ^ 52 + 1);
     (1, 2 ^ 53 - 1); (123456789, 10); (5, 7); (2 ^ 52, 3)].
Proof. repeat constructor. Qed.

Example truediv_edges :
  int_truediv 1 0 = Raise ZeroDivisionError
  /\ int_truediv 0 (-5) = Ok (S754_zero true)
  /\ int_truediv (2 ^ 1024 - 2 ^ 970) 1 = Raise OverflowError
  /\ int_truediv (2 ^ 1024 - 2 ^ 970 - 1) 1
     = Ok (S754_finite false (2 ^ 53 - 1) 971)
  /\ int_truediv 1 (2 ^ 1075) = Ok (S754_zero false)
  /\ int_truediv 3 (2 ^ 1075) = Ok (S754_finite false 2 (-1074)).
Proof. vm_compute. repeat split; reflexivity. Qed.

Example round_ties :
  (q ← int_truediv 1 4; float_round q 1) = Ok (float_of_decimal 2 1)
  /\ (q ← int_truediv 3 4; float_round q 1) = Ok (float_of_decimal 8 1)
  /\ (q ← int_truediv 9 20; float_round q 1) = Ok (float_of_decimal 5 1)
  /\ (q ← int_truediv (-1) 25; float_round q 1) = Ok (S754_zero true).
Proof. vm_compute. repeat split; reflexivity. Qed.

(** ** Splitting what was joined *)

Lemma split_no_sep sep f : contains sep f = false -> split sep f = [f].
Proof.
  induction f as [| c f IH]; simpl; [done |].
  intros [Hc Hf]%orb_false_elim. by rewrite Hc, (IH Hf).
Qed.

Lemma split_app_sep sep f rest :
  contains sep f = false ->
  split sep (f +:+ String sep rest) = f :: split sep rest.
Proof.
  induction f as [| c f IH]; simpl.
  - intros _. unfold String.app. simpl. by rewrite bool_decide_eq_true_2.
  - intros [Hc Hf]%orb_false_elim. unfold String.app in *. simpl.
    by rewrite Hc, (IH Hf).
Qed.

Lemma split_join sep fields :
  fields <> [] -> Forall (fun f => contains sep f = false) fields ->
  split sep (join sep fields) = fields.
Proof.
  intros Hne Hall. induction Hall as [| f fs Hf Hfs IH]; [done |].
  destruct fs as [| g fs].
  - simpl. by apply split_no_sep.
  - change (join sep (f :: g :: fs))
      with (f +:+ String sep (join sep (g :: fs))).
    rewrite split_app_sep by done. f_equal. by apply IH.
Qed.

(** ** Exceptions of the parser *)

Lemma py_int_raise (s : string) (e : exn) :
  py_int s = Raise e -> e = ValueError.
Proof.
  unfold py_int.
  destruct (match skip_int_space s with
            | String "+"%char r => (false, r)
            | String "-"%char r => (true, r)
            | _ => (false, skip_int_space s)
            end) as [neg s2].
  destruct (startswith "_"%char s2); [congruence |].
  destruct (scan_digits s2 false 0 0) as [[[v nd] rest] |]; [| congruence].
  repeat (match goal with |- context [if ?b then _ else _] => destruct b end);
    congruence.
Qed.

Lemma parse_gff_line_raise (line : string) (e : exn) :
  parse_gff_line line = Raise e -> e = ValueError.
Proof.
  unfold parse_gff_line.
  destruct (bool_decide (strip line = EmptyString)
            || startswith "#"%char (strip line)); [congruence |].
  destruct (length (split tab (strip line)) <? 8)%nat; [congruence |].
  destruct (py_int (field (split tab (strip line)) 3)) as [s | e1] eqn:E1;
    simpl.
  - destruct (py_int (field (split tab (strip line)) 4)) as [s' | e2] eqn:E2;
      simpl; [congruence |].
    intros [= <-]. by eapply py_int_raise.
  - intros [= <-]. by eapply py_int_raise.
Qed.

(** ** The list of retained records *)

Lemma foldM_read_acc (ft : option string) (lines : list string)
  (acc : list gff_record) :
  foldM (fun features line =>
           parsed ← parse_gff_line line;
           Ok (match parsed with
               | Some p => if keep ft p then features ++ [p] else features
               | None => features
               end)) acc lines
  = (fun fs => acc ++ fs) <$> read_features lines ft.
Proof.
  unfold read_features. revert acc.
  induction lines as [| line lines IH]; intros acc; simpl.
  - by rewrite app_nil_r.
  - destruct (parse_gff_line line) as [[p |] | e]; simpl; [| apply IH | done].
    destruct (keep ft p); [| apply IH].
    rewrite (IH (acc ++ [p])), (IH [p]).
    destruct (foldM _ [] lines) as [fs | e]; simpl; [| done].
    by rewrite <- app_assoc.
Qed.

Lemma read_features_nil (ft : option string) : read_features [] ft = Ok [].
Proof. reflexivity. Qed.

Lemma read_features_cons (ft : option string) (line : string)
  (lines : list string) :
  read_features (line :: lines) ft
  = parsed ← parse_gff_line line;
    rest ← read_features lines ft;
    Ok (retain ft parsed rest).
Proof.
  unfold read_features at 1. simpl.
  destruct (parse_gff_line line) as [[p |] | e]; simpl; [| | done].
  - destruct (keep ft p).
    + rewrite foldM_read_acc. by destruct (read_features lines ft).
    + fold (read_features lines ft). by destruct (read_features lines ft).
  - fold (read_features lines ft). by destruct (read_features lines ft).
Qed.

Lemma read_features_raise (lines : list string) (ft : option string)
  (e : exn) :
  read_features lines ft = Raise e -> e = ValueError.
Proof.
  induction lines as [| line lines IH]; [done |].
  rewrite read_features_cons.
  destruct (parse_gff_line line) as [p | e1] eqn:E; simpl.
  - destruct (read_features lines ft); simpl; [done |].
    intros [= <-]. by apply IH.
  - intros [= <-]. by eapply parse_gff_line_raise.
Qed.

Lemma read_features_bad_line (lines : list string) (ft : option string)
  (line : string) :
  line ∈ lines -> parse_gff_line line = Raise ValueError ->
  read_features lines ft = Raise ValueError.
Proof.
  intros Hin Hbad.
  induction lines as [| l lines IH]; [by apply elem_of_nil in Hin |].
  rewrite read_features_cons.
  apply elem_of_cons in Hin as [<- | Hin].
  - by rewrite Hbad.
  - destruct (parse_gff_line l) as [p | e] eqn:E; simpl.
    + by rewrite (IH Hin).
    + f_equal. by eapply parse_gff_line_raise.
Qed.

(** A run filtered on [t] retains the records of type [t] of the unfiltered
    run, in the same order. *)
Lemma read_features_filter (lines : list string) (t : string)
  (fs : list gff_record) :
  read_features lines None = Ok fs ->
  read_features lines (Some t) = Ok (filter (fun f => feature f = t) fs).
Proof.
  revert fs. induction lines as [| line lines IH]; intros fs.
  - rewrite !read_features_nil. by intros [= <-].
  - rewrite !read_features_cons.
    destruct (parse_gff_line line) as [p | e]; simpl; [| done].
    destruct (read_features lines None) as [rest | e]; simpl; [| done].
    intros [= <-]. rewrite (IH rest eq_refl). simpl. f_equal.
    destruct p as [p |]; simpl; [| done].
    rewrite filter_cons. unfold bool_decide.
    by destruct (decide_rel eq (feature p) t).
Qed.

Lemma read_features_filter_ok (lines : list string) (t : string)
  (fs : list gff_record) :
  read_features lines (Some t) = Ok fs ->
  exists all, read_features lines None = Ok all.
Proof.
  revert fs. induction lines as [| line lines IH]; intros fs.
  - by exists [].
  - rewrite !read_features_cons.
    destruct (parse_gff_line line) as [p | e]; simpl; [| done].
    destruct (read_features lines (Some t)) as [rest | e]; simpl; [| done].
    destruct (IH rest eq_refl) as [all ->]. simpl. eauto.
Qed.

(** ** Counting in a [defaultdict(int)] *)

Section counting.
Variable key : gff_record -> string.

Lemma count_where_nonneg k fs : 0 <= count_where key k fs.
Proof. unfold count_where, len. lia. Qed.

Lemma count_where_snoc k fs f :
  count_where key k (fs ++ [f])
  = count_where key k fs + (if bool_decide (key f = k) then 1 else 0).
Proof.
  unfold count_where, len. rewrite filter_app, length_app.
  rewrite filter_cons, filter_nil. unfold bool_decide.
  destruct (decide_rel eq (key f) k); simpl; lia.
Qed.

Lemma count_by_snoc fs f :
  count_by key (fs ++ [f]) = incr (key f) (count_by key fs).
Proof. unfold count_by. by rewrite foldl_snoc. Qed.

Lemma count_by_lookup fs k :
  count_by key fs !! k
  = if count_where key k fs =? 0 then None else Some (count_where key k fs).
Proof.
  induction fs as [| f fs IH] using rev_ind; [done |].
  rewrite count_by_snoc, count_where_snoc. unfold incr.
  pose proof (count_where_nonneg k fs) as Hn.
  destruct (decide (key f = k)) as [-> | Hne].
  - rewrite lookup_insert_eq, bool_decide_eq_true_2 by done.
    rewrite IH.
    destruct (count_where key k fs =? 0) eqn:E0; simpl.
    + apply Z.eqb_eq in E0. rewrite E0. done.
    + destruct (count_where key k fs + 1 =? 0) eqn:E1; [lia | done].
  - rewrite lookup_insert_ne, bool_decide_eq_false_2 by done.
    by rewrite Z.add_0_r.
Qed.

Lemma sum_values_empty : sum_values ∅ = 0.
Proof. unfold sum_values. by rewrite map_fold_empty. Qed.

Lemma sum_values_insert d k v :
  d !! k = None -> sum_values (<[k := v]> d) = sum_values d + v.
Proof.
  intros Hk. unfold sum_values.
  rewrite map_fold_insert_L; [done | intros; lia | done].
Qed.

Lemma sum_values_incr d k : sum_values (incr k d) = sum_values d + 1.
Proof.
  unfold incr. destruct (d !! k) as [v |] eqn:E; simpl.
  - rewrite <- (insert_delete_eq d k (v + 1)).
    rewrite <- (insert_id d k v E) at 2.
    rewrite <- (insert_delete_eq d k v).
    rewrite !sum_values_insert by apply lookup_delete_eq. lia.
  - rewrite sum_values_insert by done. lia.
Qed.

Lemma sum_values_count_by fs : sum_values (count_by key fs) = len fs.
Proof.
  induction fs as [| f fs IH] using rev_ind; [apply sum_values_empty |].
  rewrite count_by_snoc, sum_values_incr, IH.
  unfold len. rewrite length_app. simpl. lia.
Qed.

Lemma count_where_zero k fs :
  count_where key k fs = 0 <-> k ∉ key <$> fs.
Proof.
  unfold count_where, len. rewrite list_elem_of_fmap. split.
  - intros H0 (f & -> & Hf).
    assert (f ∈ filter (fun g => key g = key f) fs) as Hin
      by (by apply list_elem_of_filter).
    destruct (filter (fun g => key g = key f) fs); [| simpl in H0; lia].
    by apply elem_of_nil in Hin.
  - intros Hno.
    destruct (filter (fun f => key f = k) fs) as [| f l] eqn:E; [done |].
    exfalso. apply Hno. exists f.
    assert (f ∈ filter (fun f => key f = k) fs) as Hin
      by (rewrite E; apply list_elem_of_here).
    apply list_elem_of_filter in Hin as [Hk Hin]. done.
Qed.

End counting.

(** ** The lists of lengths *)

Lemma lengths_of_snoc t fs f :
  lengths_of t (fs ++ [f])
  = lengths_of t fs
    ++ (if bool_decide (feature f = t) then [calculate_length f] else []).
Proof.
  unfold lengths_of. rewrite filter_app, fmap_app.
  rewrite filter_cons, filter_nil. unfold bool_decide.
  by destruct (decide_rel eq (feature f) t).
Qed.

Lemma lengths_by_type_snoc fs f :
  lengths_by_type (fs ++ [f])
  = append_to (feature f) (calculate_length f) (lengths_by_type fs).
Proof. unfold lengths_by_type. by rewrite foldl_snoc. Qed.

Lemma lengths_by_type_lookup fs t :
  lengths_by_type fs !! t
  = match lengths_of t fs with
    | [] => None
    | ls => Some ls
    end.
Proof.
  induction fs as [| f fs IH] using rev_ind; [done |].
  rewrite lengths_by_type_snoc, lengths_of_snoc. unfold append_to.
  destruct (decide (feature f = t)) as [-> | Hne].
  - rewrite lookup_insert_eq, bool_decide_eq_true_2 by done.
    rewrite IH.
    destruct (lengths_of t fs) as [| l ls]; simpl; done.
  - rewrite lookup_insert_ne, bool_decide_eq_false_2 by done.
    by rewrite app_nil_r.
Qed.

Lemma lengths_of_length t fs :
  len (lengths_of t fs) = count_where feature t fs.
Proof. unfold lengths_of, count_where, len. by rewrite length_fmap. Qed.

(** ** Exceptions of the average *)

Lemma int_truediv_raise a b e :
  int_truediv a b = Raise e ->
  (b = 0 /\ e = ZeroDivisionError) \/ (b <> 0 /\ e = OverflowError).
Proof.
  unfold int_truediv. destruct (b =? 0) eqn:Eb.
  - apply Z.eqb_eq in Eb. intros [= <-]. by left.
  - apply Z.eqb_neq in Eb. destruct (a =? 0); [done |].
    destruct (is_infinity _); [| done]. intros [= <-]. by right.
Qed.

Lemma float_round_raise x n e :
  float_round x n = Raise e -> e = OverflowError.
Proof.
  unfold float_round. destruct x as [| | | s m ex]; try done.
  destruct (shift_ratio _ _ _) as [a b].
  destruct (_ =? 0); [done |].
  destruct (is_infinity _); [| done]. by intros [= <-].
Qed.

Lemma len_nonempty {A} (l : list A) : l <> [] -> len l <> 0.
Proof. destruct l; [done |]. unfold len. simpl. lia. Qed.

(** A list of lengths that is not empty is never divided by zero. *)
Lemma average_raise ls e :
  ls <> [] -> average ls = Raise e -> e = OverflowError.
Proof.
  intros Hne. unfold average.
  destruct (int_truediv (sum ls) (len ls)) as [q | e1] eqn:E; simpl.
  - apply float_round_raise.
  - intros [= <-].
    apply int_truediv_raise in E as [[H0 _] | [_ ->]]; [| done].
    by apply len_nonempty in H0.
Qed.

(** ** The loop over [lengths_by_type.items()] *)

Lemma avg_lengths_spec (lbt : gmap string (list Z)) :
  match avg_lengths lbt with
  | Ok avg => averages_of lbt avg
  | Raise e => exists t ls, lbt !! t = Some ls /\ average ls = Raise e
  end.
Proof.
  unfold avg_lengths.
  apply (map_fold_weak_ind
           (fun r (m : gmap string (list Z)) =>
              match r with
              | Ok avg => averages_of m avg
              | Raise e => exists t ls, m !! t = Some ls /\ average ls = Raise e
              end)).
  - intros t. by rewrite !lookup_empty.
  - intros i ls m r Hi IH. destruct r as [avg | e]; simpl.
    + destruct (average ls) as [x | e] eqn:E; simpl.
      * intros t. destruct (decide (i = t)) as [<- | Hne].
        -- rewrite !lookup_insert_eq. eauto.
        -- rewrite !lookup_insert_ne by done. apply IH.
      * exists i, ls. by rewrite lookup_insert_eq.
    + destruct IH as (t & ls' & Ht & Hr). exists t, ls'.
      rewrite lookup_insert_ne by congruence. done.
Qed.

Lemma avg_lengths_ok lbt avg :
  avg_lengths lbt = Ok avg -> averages_of lbt avg.
Proof. intros H. pose proof (avg_lengths_spec lbt) as S. by rewrite H in S. Qed.


Lemma averages_of_unique lbt avg1 avg2 :
  averages_of lbt avg1 -> averages_of lbt avg2 -> avg1 = avg2.
Proof.
  intros H1 H2. apply map_eq. intros t.
  specialize (H1 t). specialize (H2 t).
  destruct (lbt !! t) as [ls |].
  - destruct H1 as (x1 & E1 & ->), H2 as (x2 & E2 & ->). congruence.
  - congruence.
Qed.

(** ** The shape of a run *)

Lemma process_gff_ok_inv lines ft r :
  process_gff lines ft = Ok r ->
  exists fs avg,
    read_features lines ft = Ok fs
    /\ avg_lengths (lengths_by_type fs) = Ok avg
    /\ r = {| total_features := len fs;
              by_type := count_by feature fs;
              avg_length := avg;
              strand_distribution := count_by strand fs |}.
Proof.
  unfold process_gff.
  destruct (read_features lines ft) as [fs | e]; simpl; [| done].
  destruct (avg_lengths (lengths_by_type fs)) as [avg | e] eqn:E; simpl;
    [| done].
  intros [= <-]. by exists fs, avg.
Qed.

Lemma process_gff_raise lines ft e :
  process_gff lines ft = Raise e -> e = ValueError \/ e = OverflowError.
Proof.
  unfold process_gff.
  destruct (read_features lines ft) as [fs | e1] eqn:E1; simpl.
  - pose proof (avg_lengths_spec (lengths_by_type fs)) as S.
    destruct (avg_lengths (lengths_by_type fs)) as [avg | e2]; simpl; [done |].
    intros [= <-]. right.
    destruct S as (t & ls & Ht & Hr).
    apply (average_raise ls); [| done].
    rewrite lengths_by_type_lookup in Ht.
    destruct (lengths_of t fs); [done |]. by injection Ht as <-.
  - intros [= <-]. left. by eapply read_features_raise.
Qed.

(** ** Rounding stays within the finite binary64 numbers *)

Lemma pow2_pos x : 0 <= x -> 0 < 2 ^ x.
Proof. intros. by apply Z.pow_pos_nonneg. Qed.

Lemma pow2_split x y : 0 <= x -> 0 <= y -> 2 ^ (x + y) = 2 ^ x * 2 ^ y.
Proof. intros. by apply Z.pow_add_r. Qed.

Lemma below_mono n d x y :
  0 < n -> 0 < d -> x <= y -> below n d x -> below n d y.
Proof.
  intros Hn Hd Hxy. unfold below.
  destruct (Z.leb_spec 0 x), (Z.leb_spec 0 y); try lia.
  - pose proof (Z.pow_le_mono_r 2 x y). pose proof (pow2_pos x). nia.
  - pose proof (pow2_pos (- x)). pose proof (pow2_pos y). nia.
  - pose proof (Z.pow_le_mono_r 2 (- y) (- x)). pose proof (pow2_pos (- y)).
    nia.
Qed.


Lemma ratio_log2_below n d :
  0 < n -> 0 < d -> below n d (ratio_log2 n d + 1).
Proof.
  intros Hn Hd. unfold ratio_log2.
  pose proof (Z.log2_spec n Hn) as [Hn1 Hn2].
  pose proof (Z.log2_spec d Hd) as [Hd1 Hd2].
  pose proof (Z.log2_nonneg n) as HL. pose proof (Z.log2_nonneg d) as HM.
  set (L := Z.log2 n) in *. set (M := Z.log2 d) in *.
  destruct (shift_ratio n d (L - M)) as [a b] eqn:E.
  destruct (Z.ltb_spec a b) as [Hab | Hab].
  - replace (L - M - 1 + 1) with (L - M) by lia.
    unfold below. unfold shift_ratio in E.
    by destruct (0 <=? L - M); injection E as <- <-.
  - unfold below. destruct (Z.leb_spec 0 (L - M + 1)).
    + replace (Z.succ L) with (M + (L - M + 1)) in Hn2 by lia.
      rewrite pow2_split in Hn2 by lia.
      pose proof (pow2_pos (L - M + 1)). nia.
    + replace M with (Z.succ L + - (L - M + 1)) in Hd1 by lia.
      rewrite pow2_split in Hd1 by lia.
      pose proof (pow2_pos (- (L - M + 1))). nia.
Qed.







Lemma sum_from a l : foldl Z.add a l = a + sum l.
Proof.
  unfold sum. revert a. induction l as [| x l IH]; intros a; simpl; [lia |].
  rewrite (IH (a + x)), (IH (0 + x)). lia.
Qed.

Lemma sum_cons x l : sum (x :: l) = x + sum l.
Proof. unfold sum at 1. simpl. by rewrite sum_from. Qed.



(** ** Filtering the records *)

Lemma filter_key_filter (key : gff_record -> string) t u fs :
  filter (fun f => key f = t) (filter (fun f => key f = u) fs)
  = if bool_decide (t = u) then filter (fun f => key f = u) fs else [].
Proof.
  induction fs as [| f fs IH]; [by case_bool_decide |].
  rewrite (filter_cons (fun f => key f = u) f fs).
  destruct (decide (key f = u)) as [Hu | Hu].
  - rewrite filter_cons, IH.
    destruct (decide (key f = t)) as [Ht | Ht]; case_bool_decide; congruence.
  - exact IH.
Qed.

Lemma count_where_filter t u fs :
  count_where feature t (filter (fun f => feature f = u) fs)
  = if bool_decide (t = u) then count_where feature u fs else 0.
Proof.
  unfold count_where. rewrite filter_key_filter. by case_bool_decide.
Qed.

Lemma lengths_of_filter t u fs :
  lengths_of t (filter (fun f => feature f = u) fs)
  = if bool_decide (t = u) then lengths_of u fs else [].
Proof.
  unfold lengths_of. rewrite filter_key_filter. by case_bool_decide.
Qed.

Lemma count_by_filtered t fs :
  count_by feature (filter (fun f => feature f = t) fs)
  = if count_where feature t fs =? 0 then ∅
    else {[ t := count_where feature t fs ]}.
Proof.
  apply map_eq. intros k.
  rewrite count_by_lookup, count_where_filter.
  case_bool_decide as Hk.
  - subst k. destruct (count_where feature t fs =? 0);
      [by rewrite lookup_empty | by rewrite lookup_singleton_eq].
  - simpl. destruct (count_where feature t fs =? 0);
      [by rewrite lookup_empty | by rewrite lookup_singleton_ne].
Qed.

Lemma lengths_by_type_filtered t fs :
  lengths_by_type (filter (fun f => feature f = t) fs)
  = match lengths_of t fs with
    | [] => ∅
    | ls => {[ t := ls ]}
    end.
Proof.
  apply map_eq. intros k.
  rewrite lengths_by_type_lookup, lengths_of_filter.
  case_bool_decide as Hk.
  - subst k. destruct (lengths_of t fs);
      [by rewrite lookup_empty | by rewrite lookup_singleton_eq].
  - destruct (lengths_of t fs);
      [by rewrite lookup_empty | by rewrite lookup_singleton_ne].
Qed.

Lemma avg_lengths_empty : avg_lengths ∅ = Ok ∅.
Proof. unfold avg_lengths. by rewrite map_fold_empty. Qed.

Lemma avg_lengths_singleton t ls :
  avg_lengths {[ t := ls ]} = x ← average ls; Ok {[ t := x ]}.
Proof.
  unfold avg_lengths. rewrite map_fold_singleton. simpl.
  by destruct (average ls).
Qed.


(** ** Fields of a split line *)

Lemma field_lookup (fields : list string) i x :
  fields !! i = Some x -> field fields i = x.
Proof. intros H. unfold field. by rewrite nth_lookup, H. Qed.

Lemma lookup_field (fields : list string) i :
  (i < length fields)%nat -> fields !! i = Some (field fields i).
Proof.
  intros Hi. destruct (lookup_lt_is_Some_2 fields i Hi) as [x Hx].
  by rewrite (field_lookup _ _ _ Hx).
Qed.

(** ** A filtered run, from the unfiltered one *)

Lemma process_gff_filtered lines t fs avg :
  read_features lines None = Ok fs ->
  avg_lengths (lengths_by_type fs) = Ok avg ->
  process_gff lines (Some t)
  = Ok {| total_features := count_where feature t fs;
          by_type := if count_where feature t fs =? 0 then ∅
                     else {[ t := count_where feature t fs ]};
          avg_length := match avg !! t with
                        | Some x => {[ t := x ]}
                        | None => ∅
                        end;
          strand_distribution :=
            count_by strand (filter (fun f => feature f = t) fs) |}.
Proof.
  intros Hread Havg. unfold process_gff.
  rewrite (read_features_filter lines t fs Hread). simpl.
  rewrite lengths_by_type_filtered, count_by_filtered.
  pose proof (avg_lengths_ok _ _ Havg t) as Ht.
  rewrite lengths_by_type_lookup in Ht.
  destruct (lengths_of t fs) as [| l ls] eqn:E.
  - rewrite avg_lengths_empty, Ht. done.
  - destruct Ht as (x & Hx & ->).
    rewrite avg_lengths_singleton, Hx. done.
Qed.

(** ** Totality of the statistics *)



Lemma length_in_lengths_of f fs :
  f ∈ fs -> calculate_length f ∈ lengths_of (feature f) fs.
Proof.
  intros Hf. unfold lengths_of. apply list_elem_of_fmap.
  exists f. split; [done |]. by apply list_elem_of_filter.
Qed.




(** * The claims *)

(** C1. Whenever [process_gff] returns, with or without a type filter,
    [total_features] equals the sum of the values of [by_type] and the sum
    of the values of [strand_distribution]. *)
Theorem total_features_is_sum (lines : list string) (ft : option string)
  (r : gff_stats) :
  process_gff lines ft = Ok r ->
  total_features r = sum_values (by_type r)
  /\ total_features r = sum_values (strand_distribution r).
Proof.
  intros (fs & avg & _ & _ & ->)%process_gff_ok_inv. simpl.
  by rewrite !sum_values_count_by.
Qed.

Lemma total_features_is_sum_witness :
  exists r,
    process_gff three_strands (Some "gene") = Ok r
    /\ total_features r = sum_values (by_type r)
    /\ total_features r = sum_values (strand_distribution r).
Proof.
  eexists. split; [vm_compute; reflexivity |].
  apply (total_features_is_sum three_strands (Some "gene")).
  vm_compute. reflexivity.
Defined.

(** C2, as stated, fails on a commented-out record: the line has 9 fields
    and integer coordinates, and it is skipped. *)
Lemma commented_record_is_skipped :
  (8 <= length (split tab (strip commented_gene)))%nat
  /\ py_int (field (split tab (strip commented_gene)) 3) = Ok 100
  /\ py_int (field (split tab (strip commented_gene)) 4) = Ok 200
  /\ parse_gff_line commented_gene = Ok None.
Proof. vm_compute. repeat split; lia. Qed.

(** C2, amended. For every line whose trimmed content does not begin with
    [#] and splits into at least 8 fields with fields 3 and 4 accepted by
    [int], parsing returns a record: its [seqname], [source], [feature],
    [score], [strand] and [frame] are fields 0, 1, 2, 5, 6 and 7, its
    [start] and [end] are the integers of fields 3 and 4, and its
    [attributes] is field 8 when there is one and the empty string
    otherwise. *)
Theorem parse_gff_line_roundtrip (line : string) (fields : list string)
  (f3 f4 : string) (s e : Z) :
  split tab (strip line) = fields ->
  startswith "#"%char (strip line) = false ->
  (8 <= length fields)%nat ->
  fields !! 3%nat = Some f3 -> fields !! 4%nat = Some f4 ->
  py_int f3 = Ok s -> py_int f4 = Ok e ->
  exists r,
    parse_gff_line line = Ok (Some r)
    /\ fields !! 0%nat = Some (seqname r)
    /\ fields !! 1%nat = Some (source r)
    /\ fields !! 2%nat = Some (feature r)
    /\ start r = s
    /\ end_ r = e
    /\ fields !! 5%nat = Some (score r)
    /\ fields !! 6%nat = Some (strand r)
    /\ fields !! 7%nat = Some (frame r)
    /\ attributes r = default EmptyString (fields !! 8%nat).
Proof.
  intros Hsplit Hhash Hlen H3 H4 Hs He. unfold parse_gff_line.
  assert (strip line <> EmptyString) as Hne.
  { intros Hempty. rewrite Hempty in Hsplit. subst fields. simpl in Hlen. lia. }
  rewrite bool_decide_eq_false_2, Hhash by done. simpl.
  rewrite Hsplit.
  destruct (Nat.ltb_spec (length fields) 8) as [Hlt | _]; [lia |].
  rewrite (field_lookup _ _ _ H3), (field_lookup _ _ _ H4), Hs, He. simpl.
  eexists. split; [reflexivity |]. simpl.
  rewrite <- !lookup_field by lia. repeat split; try done.
  destruct (Nat.ltb_spec 8 (length fields)) as [Hlt | Hge].
  - by rewrite (lookup_field fields 8 Hlt).
  - by rewrite lookup_ge_None_2 by lia.
Qed.

Lemma parse_gff_line_roundtrip_witness :
  exists r,
    parse_gff_line gene_100_200 = Ok (Some r)
    /\ seqname r = "NC_000001" /\ source r = "test" /\ feature r = "gene"
    /\ start r = 100 /\ end_ r = 200
    /\ score r = "." /\ strand r = "+" /\ frame r = "."
    /\ attributes r = "ID=test1".
Proof.
  destruct (parse_gff_line_roundtrip gene_100_200
              ["NC_000001"; "test"; "gene"; "100"; "200"; "."; "+"; ".";
               "ID=test1"] "100" "200" 100 200)
    as (r & Hr & H0 & H1 & H2 & Hs & He & H5 & H6 & H7 & H8);
    [reflexivity | reflexivity | simpl; lia | reflexivity | reflexivity
    | reflexivity | reflexivity |].
  exists r. simpl in *. repeat split; congruence.
Defined.

(** C3, as stated, fails on a commented-out line: its start field is not an
    integer, the line is skipped and the run returns. *)
Lemma commented_bad_start_is_skipped :
  (8 <= length (split tab (strip commented_bad_start)))%nat
  /\ py_int (field (split tab (strip commented_bad_start)) 3)
     = Raise ValueError
  /\ parse_gff_line commented_bad_start = Ok None
  /\ process_gff [commented_bad_start] None = Ok empty_stats.
Proof. vm_compute. repeat split; lia. Qed.

(** C3, amended. A line whose trimmed content does not begin with [#] and
    splits into at least 8 fields, and whose field 3 or field 4 is rejected
    by [int], makes [parse_gff_line] raise [ValueError]; the error leaves
    [process_gff] for every file that holds the line, with any filter, so
    the run returns no result. *)
Theorem bad_coordinate_aborts_run (line : string) (fields : list string) :
  split tab (strip line) = fields ->
  startswith "#"%char (strip line) = false ->
  (8 <= length fields)%nat ->
  py_int (field fields 3) = Raise ValueError
  \/ py_int (field fields 4) = Raise ValueError ->
  parse_gff_line line = Raise ValueError
  /\ forall lines ft, line ∈ lines -> process_gff lines ft = Raise ValueError.
Proof.
  intros Hsplit Hhash Hlen Hbad.
  assert (parse_gff_line line = Raise ValueError) as Hparse.
  { unfold parse_gff_line.
    assert (strip line <> EmptyString) as Hne.
    { intros Hempty. rewrite Hempty in Hsplit. subst fields.
      simpl in Hlen. lia. }
    rewrite bool_decide_eq_false_2, Hhash by done. simpl.
    rewrite Hsplit.
    destruct (Nat.ltb_spec (length fields) 8) as [Hlt | _]; [lia |].
    destruct Hbad as [-> | H4]; [done |].
    destruct (py_int (field fields 3)) as [s | e0] eqn:E3; simpl.
    - by rewrite H4.
    - f_equal. by eapply py_int_raise. }
  split; [done |].
  intros lines ft Hin. unfold process_gff.
  by rewrite (read_features_bad_line lines ft line Hin Hparse).
Qed.

Lemma bad_coordinate_aborts_run_witness :
  parse_gff_line bad_start = Raise ValueError
  /\ process_gff [gene_100_200; bad_start; gene_100_200] (Some "gene")
     = Raise ValueError.
Proof.
  destruct (bad_coordinate_aborts_run bad_start
              ["NC_000001"; "test"; "CDS"; "abc"; "200"; "."; "+"; "."])
    as [Hp Hrun];
    [reflexivity | reflexivity | simpl; lia | left; reflexivity |].
  split; [exact Hp |].
  apply Hrun. apply list_elem_of_further, list_elem_of_here.
Defined.

(** C4. A line that is empty after trimming, or whose trimmed content
    begins with [#], or splits on tab into fewer than 8 fields, yields the
    skip signal: no record and no error. *)
Theorem skipped_lines (line : string) :
  strip line = EmptyString
  \/ startswith "#"%char (strip line) = true
  \/ (length (split tab (strip line)) < 8)%nat ->
  parse_gff_line line = Ok None.
Proof.
  intros H. unfold parse_gff_line.
  destruct (bool_decide (strip line = EmptyString)
            || startswith "#"%char (strip line)) eqn:E; [done |].
  apply orb_false_elim in E as [E1 E2].
  apply bool_decide_eq_false in E1.
  destruct H as [H | [H | H]]; [done | congruence |].
  apply Nat.ltb_lt in H. by rewrite H.
Qed.

Lemma skipped_lines_witness :
  parse_gff_line (String newline EmptyString) = Ok None
  /\ parse_gff_line "##gff-version 3" = Ok None
  /\ parse_gff_line (tsv ["NC_000908.2"; "RefSeq"; "gene"]) = Ok None.
Proof.
  split; [| split].
  - apply (skipped_lines (String newline EmptyString)). left. reflexivity.
  - apply (skipped_lines "##gff-version 3"). right. left. reflexivity.
  - apply (skipped_lines (tsv ["NC_000908.2"; "RefSeq"; "gene"])).
    right. right. vm_compute. lia.
Defined.

(** C5. When the unfiltered run returns, the run filtered on [t] returns
    too; its [by_type] is [{t: n}] and its [total_features] is [n], for [n]
    the count of [t] in the unfiltered run, and when the unfiltered run has
    no [t] its [by_type] is empty and its [total_features] is 0. *)
Theorem filtered_counts (lines : list string) (t : string) (r0 : gff_stats) :
  process_gff lines None = Ok r0 ->
  exists r,
    process_gff lines (Some t) = Ok r
    /\ match by_type r0 !! t with
       | Some n => by_type r = {[ t := n ]} /\ total_features r = n
       | None => by_type r = ∅ /\ total_features r = 0
       end.
Proof.
  intros (fs & avg & Hread & Havg & ->)%process_gff_ok_inv.
  eexists. split; [by apply process_gff_filtered |]. simpl.
  rewrite count_by_lookup.
  destruct (Z.eqb_spec (count_where feature t fs) 0) as [H0 | H0]; done.
Qed.

Lemma filtered_counts_witness :
  exists r,
    process_gff three_strands (Some "gene") = Ok r
    /\ by_type r = {[ "gene" := 2 ]} /\ total_features r = 2.
Proof.
  destruct (filtered_counts three_strands "gene"
              three_strands_stats)
    as (r & Hr & Hby); [vm_compute; reflexivity |].
  exists r. split; [exact Hr |]. exact Hby.
Defined.

(** C6, as stated, fails when the mean is a decimal tie that is not a
    binary64 number: the mean 1.05 becomes 1.1, and half-to-even on the mean
    gives 1.0. *)
Lemma mean_tie_is_not_bankers :
  exists r fs,
    process_gff tie_lines None = Ok r
    /\ read_features tie_lines None = Ok fs
    /\ sum (lengths_of "gene" fs) = 21
    /\ len (lengths_of "gene" fs) = 20
    /\ avg_length r !! "gene" = Some (float_of_decimal 11 1)
    /\ bankers_average (lengths_of "gene" fs) = float_of_decimal 10 1
    /\ float_of_decimal 11 1 <> float_of_decimal 10 1.
Proof.
  do 2 eexists.
  split; [vm_compute; reflexivity |].
  split; [vm_compute; reflexivity |].
  vm_compute. repeat split; congruence.
Qed.

(** C6, amended. No run divides by zero. For every feature type with at
    least one retained record, the number of its records is not zero, the
    quotient of the sum of its lengths by that number is a binary64 number
    [q] (the one nearest to the mean), and [avg_length] holds [round(q, 1)]:
    the exact value of [q] rounded to one decimal, ties to the even digit,
    as the nearest binary64 number. A type without a retained record has no
    average. *)
Theorem avg_length_rounding :
  (forall lines ft, process_gff lines ft <> Raise ZeroDivisionError)
  /\ forall lines ft r,
       process_gff lines ft = Ok r ->
       exists fs,
         read_features lines ft = Ok fs
         /\ forall t,
              (lengths_of t fs = [] -> avg_length r !! t = None)
              /\ (lengths_of t fs <> [] ->
                  len (lengths_of t fs) <> 0
                  /\ exists q x,
                       int_truediv (sum (lengths_of t fs))
                         (len (lengths_of t fs)) = Ok q
                       /\ float_round q 1 = Ok x
                       /\ avg_length r !! t = Some x).
Proof.
  split.
  { intros lines ft Hraise.
    by destruct (process_gff_raise lines ft _ Hraise). }
  intros lines ft r (fs & avg & Hread & Havg & ->)%process_gff_ok_inv. simpl.
  exists fs. split; [done |]. intros t.
  pose proof (avg_lengths_ok _ _ Havg t) as Ht.
  rewrite lengths_by_type_lookup in Ht.
  destruct (lengths_of t fs) as [| l ls] eqn:E; [by split |].
  split; [done |]. intros _.
  split; [by apply len_nonempty |].
  destruct Ht as (x & Hx & Hlook). unfold average in Hx.
  destruct (int_truediv (sum (l :: ls)) (len (l :: ls))) as [q | e];
    [| done].
  by exists q, x.
Qed.

Lemma avg_length_rounding_witness :
  exists r fs,
    process_gff three_genes None = Ok r
    /\ read_features three_genes None = Ok fs
    /\ lengths_of "gene" fs = [10; 10; 5]
    /\ avg_length r !! "gene" = Some (float_of_decimal 83 1).
Proof.
  assert (exists r, process_gff three_genes None = Ok r) as [r Hr]
    by (eexists; vm_compute; reflexivity).
  destruct avg_length_rounding as [_ Hround].
  destruct (Hround three_genes None r Hr) as (fs & Hfs & Hall).
  exists r, fs. split; [exact Hr |]. split; [exact Hfs |].
  assert (lengths_of "gene" fs = [10; 10; 5]) as Hls.
  { vm_compute in Hfs. injection Hfs as <-. vm_compute. reflexivity. }
  split; [exact Hls |].
  destruct (Hall "gene") as (_ & Hsome).
  destruct Hsome as (_ & q & x & Hq & Hx & Hlook); [by rewrite Hls |].
  rewrite Hls in Hq. vm_compute in Hq. injection Hq as <-.
  vm_compute in Hx. injection Hx as <-.
  rewrite Hlook. vm_compute. reflexivity.
Defined.

(** C7. When the unfiltered run returns and has an average for [t], the run
    filtered on [t] returns and has the same average for [t]. *)
Theorem filtered_avg_length (lines : list string) (t : string)
  (r0 : gff_stats) (x : float) :
  process_gff lines None = Ok r0 ->
  avg_length r0 !! t = Some x ->
  exists r, process_gff lines (Some t) = Ok r /\ avg_length r !! t = Some x.
Proof.
  intros (fs & avg & Hread & Havg & ->)%process_gff_ok_inv. simpl. intros Hx.
  eexists. split; [by apply process_gff_filtered |]. simpl.
  by rewrite Hx, lookup_singleton_eq.
Qed.

Lemma filtered_avg_length_witness :
  exists r,
    process_gff three_strands (Some "CDS") = Ok r
    /\ avg_length r !! "CDS" = Some (float_of_decimal 510 1).
Proof.
  apply (filtered_avg_length three_strands "CDS"
           three_strands_stats).
  - vm_compute. reflexivity.
  - vm_compute. reflexivity.
Defined.

(** The one limit on lengths is the range of a float, and it is not about
    the order of the coordinates: the forward record 0..10^400 and the
    reversed record 0..-10^400 both parse, and the division of the average
    raises [OverflowError] for both. *)
Lemma float_range_is_not_about_order :
  (exists f, parse_gff_line huge_forward = Ok (Some f)
             /\ start f < end_ f)
  /\ process_gff [huge_forward] None = Raise OverflowError
  /\ (exists f, parse_gff_line huge_reversed = Ok (Some f)
                /\ end_ f < start f)
  /\ process_gff [huge_reversed] None = Raise OverflowError.
Proof.
  split; [eexists; split; [vm_compute; reflexivity | vm_compute; done] |].
  split; [vm_compute; reflexivity |].
  split; [eexists; split; [vm_compute; reflexivity | vm_compute; done] |].
  vm_compute. reflexivity.
Qed.



(** C9. The keys of [by_type] are the feature types of the retained
    records, every count is at least 1, and [avg_length] has the keys of
    [by_type]. *)
Theorem key_sets (lines : list string) (ft : option string) (r : gff_stats) :
  process_gff lines ft = Ok r ->
  exists fs,
    read_features lines ft = Ok fs
    /\ dom (by_type r) = list_to_set (feature <$> fs)
    /\ (forall t n, by_type r !! t = Some n -> 1 <= n)
    /\ dom (avg_length r) = dom (by_type r).
Proof.
  intros (fs & avg & Hread & Havg & ->)%process_gff_ok_inv. simpl.
  exists fs. split; [done |].
  assert (forall t, is_Some (count_by feature fs !! t)
                    <-> count_where feature t fs <> 0) as Hcount.
  { intros t. rewrite count_by_lookup.
    destruct (Z.eqb_spec (count_where feature t fs) 0) as [H0 | H0].
    - split; [by intros [? ?] | done].
    - split; [done | eauto]. }
  split; [| split].
  - apply set_eq. intros t.
    rewrite elem_of_dom, elem_of_list_to_set, Hcount.
    pose proof (count_where_zero feature t fs) as Hz.
    destruct (decide (t ∈ feature <$> fs)); tauto.
  - intros t n. rewrite count_by_lookup.
    pose proof (count_where_nonneg feature t fs).
    destruct (Z.eqb_spec (count_where feature t fs) 0); [done |].
    intros [= <-]. lia.
  - apply set_eq. intros t. rewrite !elem_of_dom, Hcount.
    pose proof (avg_lengths_ok _ _ Havg t) as Ht.
    rewrite lengths_by_type_lookup in Ht.
    rewrite <- lengths_of_length.
    destruct (lengths_of t fs) as [| l ls].
    + rewrite Ht. split; [by intros [? ?] | done].
    + destruct Ht as (x & _ & ->). split; [| eauto].
      intros _. unfold len. simpl. lia.
Qed.

Lemma key_sets_witness :
  exists fs,
    read_features three_strands None = Ok fs
    /\ dom (by_type
              three_strands_stats)
       = list_to_set (feature <$> fs).
Proof.
  destruct (key_sets three_strands None
              three_strands_stats)
    as (fs & Hfs & Hdom & _); [vm_compute; reflexivity |].
  exists fs. split; [exact Hfs | exact Hdom].
Defined.

(** C10. [int] accepts more than digit strings, and so does the parser: a
    start field with a sign, with surrounding spaces or with underscores
    between its digits is read as the integer it denotes, and a record with
    negative coordinates comes out of [parse_gff_line] and is aggregated by
    [process_gff]. *)
Theorem signed_and_spaced_coordinates :
  py_int "-5" = Ok (-5)
  /\ py_int " 7 " = Ok 7
  /\ py_int "1_000" = Ok 1000
  /\ py_int "+12" = Ok 12
  /\ parse_gff_line (gene "-5" "-1")
     = Ok (Some (mk_record "NC_000001" "test" "gene" (-5) (-1) "." "+" "."
                   "ID=g"))
  /\ parse_gff_line (gene " 7 " "9")
     = Ok (Some (mk_record "NC_000001" "test" "gene" 7 9 "." "+" "." "ID=g"))
  /\ parse_gff_line (gene "1_000" "2_000")
     = Ok (Some (mk_record "NC_000001" "test" "gene" 1000 2000 "." "+" "."
                   "ID=g"))
  /\ parse_gff_line (gene "+12" "20")
     = Ok (Some (mk_record "NC_000001" "test" "gene" 12 20 "." "+" "."
                   "ID=g"))
  /\ process_gff [gene "-5" "-1"] None
     = Ok {| total_features := 1;
             by_type := {[ "gene" := 1 ]};
             avg_length := {[ "gene" := float_of_decimal 50 1 ]};
             strand_distribution := {[ "+" := 1 ]} |}.
Proof. vm_compute. repeat split; reflexivity. Qed.

(** * Further properties of the pipeline *)

(** ** Trimming *)

Lemma app_String c s t : String c s +:+ t = String c (s +:+ t).
Proof. reflexivity. Qed.

Lemma app_empty_r s : s +:+ EmptyString = s.
Proof.
  induction s as [| c s IH]; [done |]. by rewrite app_String, IH.
Qed.

Lemma app_assoc_str s t u : (s +:+ t) +:+ u = s +:+ (t +:+ u).
Proof.
  induction s as [| c s IH]; [done |]. by rewrite !app_String, IH.
Qed.

Lemma lstrip_all_space w : all_space w = true -> lstrip w = EmptyString.
Proof.
  induction w as [| c w IH]; simpl; [done |].
  intros [Hc Hw]%andb_prop. by rewrite Hc, IH.
Qed.

Lemma lstrip_app s t :
  lstrip (s +:+ t)
  = match lstrip s with
    | EmptyString => lstrip t
    | String c r => String c r +:+ t
    end.
Proof.
  induction s as [| c s IH]; [reflexivity |].
  rewrite app_String. simpl. destruct (isspace c); [exact IH | done].
Qed.

Lemma rstrip_all_space w : all_space w = true -> rstrip w = EmptyString.
Proof.
  induction w as [| c w IH]; simpl; [done |].
  intros [Hc Hw]%andb_prop. by rewrite IH, Hc.
Qed.

Lemma rstrip_app_space s w :
  all_space w = true -> rstrip (s +:+ w) = rstrip s.
Proof.
  intros Hw. induction s as [| c s IH].
  - by rewrite rstrip_all_space.
  - rewrite app_String. simpl. by rewrite IH.
Qed.

Lemma strip_padded pre s post :
  all_space pre = true -> all_space post = true ->
  strip (pre +:+ s +:+ post) = strip s.
Proof.
  intros Hpre Hpost. unfold strip.
  rewrite lstrip_app, (lstrip_all_space pre Hpre), lstrip_app.
  destruct (lstrip s) as [| c r].
  - by rewrite (lstrip_all_space post Hpost).
  - by rewrite rstrip_app_space.
Qed.

(** X1. Whitespace around a line does not matter to the parser: indenting
    a line, or ending it with blanks, a carriage return or a newline, gives
    the same record, the same skip or the same error. *)
Theorem parse_ignores_padding (pre line post : string) :
  all_space pre = true -> all_space post = true ->
  parse_gff_line (pre +:+ line +:+ post) = parse_gff_line line.
Proof.
  intros Hpre Hpost. unfold parse_gff_line.
  by rewrite (strip_padded pre line post Hpre Hpost).
Qed.

Lemma parse_ignores_padding_witness :
  parse_gff_line ("  " +:+ gene_100_200 +:+ String "013"%char
                    (String newline EmptyString))
  = parse_gff_line gene_100_200.
Proof.
  apply (parse_ignores_padding "  " gene_100_200
           (String "013"%char (String newline EmptyString)));
    reflexivity.
Defined.

(** ** The fields the parser looks at *)

Lemma split_not_nil sep s : split sep s <> [].
Proof.
  destruct s as [| c s]; simpl; [done |].
  destruct (bool_decide (c = sep)); [done |]. by destruct (split sep s).
Qed.

Lemma split_empty_iff sep s :
  split sep s = [EmptyString] <-> s = EmptyString.
Proof.
  split; [| by intros ->].
  destruct s as [| c s]; [done |]. simpl.
  pose proof (split_not_nil sep s) as Hne.
  destruct (bool_decide (c = sep)).
  - intros [= H]. done.
  - by destruct (split sep s).
Qed.

Lemma startswith_split c sep s :
  c <> sep ->
  startswith c s = startswith c (hd EmptyString (split sep s)).
Proof.
  intros Hne. destruct s as [| c' s]; [done |]. simpl.
  destruct (decide (c' = sep)) as [-> | Hsep].
  - rewrite (bool_decide_eq_true_2 (sep = sep)) by done. simpl.
    by rewrite bool_decide_eq_false_2 by congruence.
  - rewrite (bool_decide_eq_false_2 (c' = sep)) by done.
    by destruct (split sep s).
Qed.

Lemma parse_gff_line_fields line :
  parse_gff_line line = parse_fields (split tab (strip line)).
Proof.
  unfold parse_gff_line, parse_fields.
  rewrite <- (startswith_split "#"%char tab) by done.
  assert (bool_decide (strip line = EmptyString)
          = bool_decide (split tab (strip line) = [EmptyString])) as ->.
  { apply bool_decide_ext. symmetry. apply split_empty_iff. }
  done.
Qed.

Lemma field_take fields n i :
  (i < n)%nat -> field (take n fields) i = field fields i.
Proof. intros Hi. unfold field. by rewrite !nth_lookup, lookup_take_lt. Qed.

Lemma parse_fields_take fields :
  parse_fields (take 9 fields) = parse_fields fields.
Proof.
  unfold parse_fields.
  assert (bool_decide (take 9 fields = [EmptyString])
          = bool_decide (fields = [EmptyString])) as ->.
  { apply bool_decide_ext. split.
    - intros H. rewrite <- H. symmetry. apply take_ge.
      apply (f_equal length) in H. rewrite length_take in H.
      change (length [EmptyString]) with 1%nat in H. lia.
    - by intros ->. }
  assert (hd EmptyString (take 9 fields) = hd EmptyString fields) as ->
    by (by destruct fields).
  rewrite !field_take by lia. rewrite length_take.
  destruct (bool_decide (fields = [EmptyString])
            || startswith "#"%char (hd EmptyString fields)); [done |].
  destruct (Nat.ltb_spec (9 `min` length fields) 8),
    (Nat.ltb_spec (length fields) 8); try lia; [done |].
  destruct (Nat.ltb_spec 8 (9 `min` length fields)),
    (Nat.ltb_spec 8 (length fields)); try lia; done.
Qed.

(** X2. The parser looks at the first nine fields of the trimmed line and
    at nothing else: two lines that agree on them get the same record, the
    same skip or the same error, so columns after the ninth are dropped. *)
Theorem parse_first_nine_fields (line1 line2 : string) :
  take 9 (split tab (strip line1)) = take 9 (split tab (strip line2)) ->
  parse_gff_line line1 = parse_gff_line line2.
Proof.
  intros H. rewrite !parse_gff_line_fields.
  rewrite <- (parse_fields_take (split tab (strip line1))), H.
  apply parse_fields_take.
Qed.

Lemma parse_first_nine_fields_witness :
  parse_gff_line
    (tsv_line ["NC_000001"; "test"; "gene"; "100"; "200"; "."; "+"; ".";
               "ID=test1"; "extra"; "columns"])
  = parse_gff_line gene_100_200.
Proof.
  apply (parse_first_nine_fields
           (tsv_line ["NC_000001"; "test"; "gene"; "100"; "200"; "."; "+";
                      "."; "ID=test1"; "extra"; "columns"]) gene_100_200).
  reflexivity.
Defined.

(** X3. Writing at least eight tab-free fields with tabs between them, on a
    line that has no whitespace at either end once joined and does not
    begin with [#], and parsing the line, padded or not, gives the fields
    back: fields 0 to 2 and 5 to 7 as they are, fields 3 and 4 as the
    integers [int] reads, and the ninth field, or the empty string, as
    [attributes]. *)
Theorem parse_joined_fields (f0 f1 f2 f3 f4 f5 f6 f7 : string)
  (rest : list string) (pre post : string) (s e : Z) :
  let fields := f0 :: f1 :: f2 :: f3 :: f4 :: f5 :: f6 :: f7 :: rest in
  Forall (fun f => contains tab f = false) fields ->
  strip (tsv fields) = tsv fields ->
  startswith "#"%char f0 = false ->
  all_space pre = true -> all_space post = true ->
  py_int f3 = Ok s -> py_int f4 = Ok e ->
  parse_gff_line (pre +:+ tsv fields +:+ post)
  = Ok (Some (mk_record f0 f1 f2 s e f5 f6 f7 (hd EmptyString rest))).
Proof.
  intros fields Htabs Htrim Hhash Hpre Hpost Hs He.
  rewrite parse_gff_line_fields, (strip_padded pre _ post Hpre Hpost), Htrim.
  unfold tsv. rewrite (split_join tab fields) by done.
  unfold parse_fields, fields. simpl hd. rewrite Hhash.
  rewrite bool_decide_eq_false_2 by done. simpl.
  unfold field. simpl nth. rewrite Hs, He. simpl.
  by destruct rest.
Qed.

Lemma parse_joined_fields_witness :
  parse_gff_line ("  " +:+ tsv ["NC_000001"; "test"; "gene"; " 100"; "2_00";
                                 "."; "+"; "."]
                  +:+ String newline EmptyString)
  = Ok (Some (mk_record "NC_000001" "test" "gene" 100 200 "." "+" "."
                EmptyString)).
Proof.
  apply (parse_joined_fields "NC_000001" "test" "gene" " 100" "2_00" "." "+"
           "." [] "  " (String newline EmptyString) 100 200).
  - repeat (apply Forall_cons; split; [reflexivity |]). constructor.
  - reflexivity.
  - reflexivity.
  - reflexivity.
  - reflexivity.
  - reflexivity.
  - reflexivity.
Defined.

(** ** Sequences of lines put together *)

Lemma process_gff_statistics lines ft :
  process_gff lines ft = fs ← read_features lines ft; statistics fs.
Proof. reflexivity. Qed.

Lemma retain_app ft p rest more :
  retain ft p (rest ++ more) = retain ft p rest ++ more.
Proof.
  unfold retain. destruct p as [p |]; [| done]. by destruct (keep ft p).
Qed.

Lemma read_features_app lines1 lines2 ft :
  read_features (lines1 ++ lines2) ft
  = fs1 ← read_features lines1 ft;
    fs2 ← read_features lines2 ft;
    Ok (fs1 ++ fs2).
Proof.
  induction lines1 as [| line lines1 IH].
  - change ([] ++ lines2) with lines2. rewrite read_features_nil. simpl.
    by destruct (read_features lines2 ft).
  - change ((line :: lines1) ++ lines2) with (line :: (lines1 ++ lines2)).
    rewrite !read_features_cons, IH.
    destruct (parse_gff_line line) as [p | e]; simpl; [| done].
    destruct (read_features lines1 ft) as [fs1 | e]; simpl; [| done].
    destruct (read_features lines2 ft) as [fs2 | e]; simpl; [| done].
    by rewrite retain_app.
Qed.

Lemma read_features_skip lines1 lines2 line ft :
  parse_gff_line line = Ok None ->
  read_features (lines1 ++ line :: lines2) ft
  = read_features (lines1 ++ lines2) ft.
Proof.
  intros Hskip. rewrite !read_features_app, read_features_cons, Hskip. simpl.
  destruct (read_features lines1 ft) as [fs1 | e]; simpl; [| done].
  by destruct (read_features lines2 ft).
Qed.

(** X4. A line that the parser skips (a blank line, a comment, a line of
    fewer than eight fields) can be put into a file or taken out of it
    anywhere: the run returns the same statistics, or raises the same
    error. *)
Theorem skipped_line_has_no_effect (lines1 lines2 : list string)
  (line : string) (ft : option string) :
  parse_gff_line line = Ok None ->
  process_gff (lines1 ++ line :: lines2) ft = process_gff (lines1 ++ lines2) ft.
Proof.
  intros Hskip. rewrite !process_gff_statistics.
  by rewrite (read_features_skip lines1 lines2 line ft Hskip).
Qed.

Lemma skipped_line_has_no_effect_witness :
  process_gff ([gene "1" "10"] ++ "##gff-version 3" :: [gene "20" "29"]) None
  = process_gff ([gene "1" "10"] ++ [gene "20" "29"]) None.
Proof.
  apply (skipped_line_has_no_effect [gene "1" "10"] [gene "20" "29"]
           "##gff-version 3" None).
  reflexivity.
Defined.

(** ** Counting over two sequences of lines *)

Lemma count_where_app key k fs1 fs2 :
  count_where key k (fs1 ++ fs2)
  = count_where key k fs1 + count_where key k fs2.
Proof. unfold count_where, len. rewrite filter_app, length_app. lia. Qed.

Lemma count_by_default key fs k :
  default 0 (count_by key fs !! k) = count_where key k fs.
Proof.
  rewrite count_by_lookup.
  by destruct (Z.eqb_spec (count_where key k fs) 0) as [-> |].
Qed.

(** X5. Counts add up over sequences of lines: when the runs on two
    sequences of lines and on the sequence made of the lines of the first
    followed by the lines of the second return, the total of that sequence
    is the sum of the two totals, and so is every count of [by_type] and of
    [strand_distribution], a missing key counting for 0. Every line is kept
    whole: two files glued byte to byte make this sequence only when the
    first one ends with a newline. *)
Theorem counts_add_over_concatenation (lines1 lines2 : list string)
  (ft : option string) (r1 r2 r : gff_stats) :
  process_gff lines1 ft = Ok r1 ->
  process_gff lines2 ft = Ok r2 ->
  process_gff (lines1 ++ lines2) ft = Ok r ->
  total_features r = total_features r1 + total_features r2
  /\ (forall t,
        default 0 (by_type r !! t)
        = default 0 (by_type r1 !! t) + default 0 (by_type r2 !! t))
  /\ (forall s,
        default 0 (strand_distribution r !! s)
        = default 0 (strand_distribution r1 !! s)
          + default 0 (strand_distribution r2 !! s)).
Proof.
  intros (fs1 & avg1 & Hread1 & _ & ->)%process_gff_ok_inv.
  intros (fs2 & avg2 & Hread2 & _ & ->)%process_gff_ok_inv.
  intros (fs & avg & Hread & _ & ->)%process_gff_ok_inv.
  rewrite read_features_app, Hread1, Hread2 in Hread. simpl in Hread.
  injection Hread as <-. simpl.
  split; [unfold len; rewrite length_app; lia |].
  split; intros k; by rewrite !count_by_default, count_where_app.
Qed.

Lemma counts_add_over_concatenation_witness :
  exists r,
    process_gff (three_strands ++ three_genes) None = Ok r
    /\ total_features r = 3 + 3
    /\ default 0 (by_type r !! "gene") = 2 + 3.
Proof.
  assert (exists r, process_gff (three_strands ++ three_genes) None = Ok r)
    as [r Hr] by (eexists; vm_compute; reflexivity).
  destruct (counts_add_over_concatenation three_strands three_genes None
              three_strands_stats
              {| total_features := 3;
                 by_type := {[ "gene" := 3 ]};
                 avg_length := {[ "gene" := float_of_decimal 83 1 ]};
                 strand_distribution := {[ "+" := 3 ]} |} r)
    as (Htotal & Hby & _);
    [vm_compute; reflexivity | vm_compute; reflexivity | exact Hr |].
  exists r. split; [exact Hr |]. split; [exact Htotal |].
  exact (Hby "gene").
Defined.

(** ** The order of the lines *)

Lemma retain_swap ft p q rest :
  retain ft p (retain ft q rest) ≡ₚ retain ft q (retain ft p rest).
Proof.
  unfold retain. destruct p as [p |], q as [q |]; try done.
  destruct (keep ft p), (keep ft q); try done. apply Permutation_swap.
Qed.

Lemma retain_Permutation ft p rest rest' :
  rest ≡ₚ rest' -> retain ft p rest ≡ₚ retain ft p rest'.
Proof.
  intros H. unfold retain. destruct p as [p |]; [| done].
  destruct (keep ft p); [| done]. by constructor.
Qed.

Lemma same_outcome_trans {A} (R : relation A) `{!Transitive R} r1 r2 r3 :
  same_outcome R r1 r2 -> same_outcome R r2 r3 -> same_outcome R r1 r3.
Proof.
  destruct r1, r2, r3; simpl; try done; [apply transitivity | congruence].
Qed.

Lemma read_features_Permutation lines lines' ft :
  lines ≡ₚ lines' ->
  same_outcome (≡ₚ) (read_features lines ft) (read_features lines' ft).
Proof.
  induction 1 as [| x l l' Hl IH | x y l | l1 l2 l3 H12 IH12 H23 IH23].
  - rewrite read_features_nil. simpl. done.
  - rewrite !read_features_cons.
    destruct (parse_gff_line x) as [p | e]; simpl; [| done].
    destruct (read_features l ft), (read_features l' ft); simpl in *;
      try done.
    by apply retain_Permutation.
  - rewrite !read_features_cons.
    destruct (parse_gff_line x) as [p | e] eqn:Ex,
      (parse_gff_line y) as [q | e'] eqn:Ey; simpl.
    + destruct (read_features l ft); simpl; [apply retain_swap | done].
    + done.
    + done.
    + apply parse_gff_line_raise in Ex, Ey. congruence.
  - exact (same_outcome_trans (≡ₚ) _ _ _ IH12 IH23).
Qed.

Lemma sum_Permutation ls ls' : ls ≡ₚ ls' -> sum ls = sum ls'.
Proof.
  induction 1 as [| x l l' Hl IH | x y l | l1 l2 l3 H12 IH12 H23 IH23].
  - done.
  - by rewrite !sum_cons, IH.
  - rewrite !sum_cons. lia.
  - congruence.
Qed.

Lemma average_Permutation ls ls' : ls ≡ₚ ls' -> average ls = average ls'.
Proof.
  intros H. unfold average, len.
  by rewrite (sum_Permutation ls ls' H), (Permutation_length H).
Qed.

Lemma lengths_of_Permutation t fs fs' :
  fs ≡ₚ fs' -> lengths_of t fs ≡ₚ lengths_of t fs'.
Proof. intros H. unfold lengths_of. by rewrite H. Qed.

Lemma count_where_Permutation key k fs fs' :
  fs ≡ₚ fs' -> count_where key k fs = count_where key k fs'.
Proof. intros H. unfold count_where, len. by rewrite H. Qed.

Lemma count_by_Permutation key fs fs' :
  fs ≡ₚ fs' -> count_by key fs = count_by key fs'.
Proof.
  intros H. apply map_eq. intros k.
  by rewrite !count_by_lookup, (count_where_Permutation key k fs fs' H).
Qed.

Lemma lengths_by_type_Some fs t ls :
  lengths_by_type fs !! t = Some ls -> ls = lengths_of t fs /\ ls <> [].
Proof.
  rewrite lengths_by_type_lookup.
  destruct (lengths_of t fs); [done |]. by intros [= <-].
Qed.

Lemma avg_lengths_Permutation fs fs' :
  fs ≡ₚ fs' ->
  avg_lengths (lengths_by_type fs) = avg_lengths (lengths_by_type fs').
Proof.
  intros H.
  assert (forall t, average (lengths_of t fs) = average (lengths_of t fs'))
    as Havg by (intros t; by apply average_Permutation,
                               lengths_of_Permutation).
  assert (forall t, lengths_of t fs = [] <-> lengths_of t fs' = []) as Hnil.
  { intros t. pose proof (lengths_of_Permutation t fs fs' H) as Hp.
    split; intros E; rewrite E in Hp.
    - by apply Permutation_nil_l in Hp.
    - by apply Permutation_nil_r in Hp. }
  pose proof (avg_lengths_spec (lengths_by_type fs)) as S.
  pose proof (avg_lengths_spec (lengths_by_type fs')) as S'.
  destruct (avg_lengths (lengths_by_type fs)) as [avg | e],
    (avg_lengths (lengths_by_type fs')) as [avg' | e'].
  - f_equal. apply map_eq. intros t.
    specialize (S t). specialize (S' t). specialize (Havg t).
    specialize (Hnil t). rewrite lengths_by_type_lookup in S, S'.
    destruct (lengths_of t fs) as [| l ls], (lengths_of t fs') as [| l' ls'].
    + congruence.
    + discriminate (proj1 Hnil eq_refl).
    + discriminate (proj2 Hnil eq_refl).
    + destruct S as (x & Hx & ->), S' as (x' & Hx' & ->). congruence.
  - exfalso. destruct S' as (t & ls' & Ht & Hr).
    apply lengths_by_type_Some in Ht as [-> Hne].
    specialize (S t). rewrite lengths_by_type_lookup in S.
    destruct (lengths_of t fs) as [| l ls] eqn:E.
    + by apply Hne, Hnil.
    + destruct S as (x & Hx & _). rewrite <- E in Hx.
      rewrite (Havg t) in Hx. congruence.
  - exfalso. destruct S as (t & ls & Ht & Hr).
    apply lengths_by_type_Some in Ht as [-> Hne].
    specialize (S' t). rewrite lengths_by_type_lookup in S'.
    destruct (lengths_of t fs') as [| l ls'] eqn:E.
    + by apply Hne, Hnil.
    + destruct S' as (x & Hx & _). rewrite <- E in Hx.
      rewrite <- (Havg t) in Hx. congruence.
  - destruct S as (t & ls & Ht & Hr), S' as (t' & ls' & Ht' & Hr').
    apply lengths_by_type_Some in Ht as [-> Hne], Ht' as [-> Hne'].
    f_equal. apply average_raise in Hr, Hr'; congruence.
Qed.

Lemma statistics_Permutation fs fs' :
  fs ≡ₚ fs' -> statistics fs = statistics fs'.
Proof.
  intros H. unfold statistics.
  rewrite (avg_lengths_Permutation fs fs' H).
  rewrite (count_by_Permutation feature fs fs' H).
  rewrite (count_by_Permutation strand fs fs' H).
  unfold len. by rewrite (Permutation_length H).
Qed.

(** X6. The order of the lines of a file does not matter to the
    statistics: a file and any rearrangement of its lines give the same
    total, the same counts and the same averages for the same keys, or the
    same error. *)
Theorem line_order_is_irrelevant (lines lines' : list string)
  (ft : option string) :
  lines ≡ₚ lines' -> process_gff lines ft = process_gff lines' ft.
Proof.
  intros H. rewrite !process_gff_statistics.
  pose proof (read_features_Permutation lines lines' ft H) as Hread.
  destruct (read_features lines ft) as [fs | e],
    (read_features lines' ft) as [fs' | e']; simpl in *; try done.
  - by apply statistics_Permutation.
  - by subst.
Qed.

Lemma line_order_is_irrelevant_witness :
  process_gff three_strands (Some "gene")
  = process_gff (reverse three_strands) (Some "gene").
Proof.
  apply (line_order_is_irrelevant three_strands (reverse three_strands)
           (Some "gene")).
  symmetry. apply reverse_Permutation.
Defined.

(** ** What the counters hold *)

Lemma count_by_Some key fs k n :
  count_by key fs !! k = Some n <-> n = count_where key k fs /\ 1 <= n.
Proof.
  rewrite count_by_lookup. pose proof (count_where_nonneg key k fs).
  destruct (Z.eqb_spec (count_where key k fs) 0) as [H0 | H0].
  - split; [done | lia].
  - split; [intros [= <-]; lia | by intros [-> _]].
Qed.

Lemma count_by_dom key fs :
  dom (count_by key fs) = list_to_set (key <$> fs).
Proof.
  apply set_eq. intros k. rewrite elem_of_dom, elem_of_list_to_set.
  pose proof (count_where_zero key k fs) as Hz.
  pose proof (count_where_nonneg key k fs) as Hn.
  split.
  - intros [n [-> Hn1]%count_by_Some].
    destruct (decide (k ∈ key <$> fs)) as [| Hno]; [done |].
    apply Hz in Hno. lia.
  - intros Hin. exists (count_where key k fs). apply count_by_Some.
    split; [done |].
    destruct (decide (count_where key k fs = 0)) as [H0 | H0]; [| lia].
    by apply Hz in H0.
Qed.

(** X7. Every counter holds an exact count: [by_type[t]] is the number of
    retained records of type [t] and [strand_distribution[s]] the number of
    retained records of strand [s], a key is present exactly when that
    number is at least 1, and the keys of [strand_distribution] are the
    strands of the retained records. *)
Theorem counters_are_exact (lines : list string) (ft : option string)
  (r : gff_stats) :
  process_gff lines ft = Ok r ->
  exists fs,
    read_features lines ft = Ok fs
    /\ (forall t n,
          by_type r !! t = Some n
          <-> n = count_where feature t fs /\ 1 <= n)
    /\ (forall s n,
          strand_distribution r !! s = Some n
          <-> n = count_where strand s fs /\ 1 <= n)
    /\ dom (strand_distribution r) = list_to_set (strand <$> fs).
Proof.
  intros (fs & avg & Hread & _ & ->)%process_gff_ok_inv. simpl.
  exists fs. split; [done |].
  split; [intros t n; apply count_by_Some |].
  split; [intros s n; apply count_by_Some |].
  apply count_by_dom.
Qed.

Lemma counters_are_exact_witness :
  exists fs,
    read_features three_strands None = Ok fs
    /\ (strand_distribution three_strands_stats !! "+" = Some 2
        <-> 2 = count_where strand "+" fs /\ 1 <= 2).
Proof.
  destruct (counters_are_exact three_strands None three_strands_stats)
    as (fs & Hfs & _ & Hstrand & _); [vm_compute; reflexivity |].
  exists fs. split; [exact Hfs |]. exact (Hstrand "+" 2).
Defined.

(** ** The errors of a run *)

Lemma read_features_raise_line lines ft e :
  read_features lines ft = Raise e ->
  exists line, line ∈ lines /\ parse_gff_line line = Raise e.
Proof.
  induction lines as [| l lines IH]; [done |].
  rewrite read_features_cons.
  destruct (parse_gff_line l) as [p | e1] eqn:E; simpl.
  - destruct (read_features lines ft) as [rest | e2]; simpl; [done |].
    intros [= <-]. destruct (IH eq_refl) as (line & Hin & Hline).
    exists line. split; [by apply list_elem_of_further | done].
  - intros [= <-]. exists l. split; [apply list_elem_of_here | done].
Qed.

Lemma statistics_raise fs e :
  statistics fs = Raise e ->
  e = OverflowError
  /\ exists t, lengths_of t fs <> []
               /\ average (lengths_of t fs) = Raise OverflowError.
Proof.
  unfold statistics.
  pose proof (avg_lengths_spec (lengths_by_type fs)) as S.
  destruct (avg_lengths (lengths_by_type fs)) as [avg | e']; simpl; [done |].
  intros [= <-]. destruct S as (t & ls & Ht & Hr).
  apply lengths_by_type_Some in Ht as [-> Hne].
  pose proof (average_raise _ _ Hne Hr) as ->. eauto.
Qed.

(** X8. The errors of parsing and aggregating, for a file that has been
    opened and decoded into the lines [lines] (opening and decoding come
    before and have errors of their own, which are not covered). Parsing
    and aggregating these lines raises [ValueError] exactly when some line
    makes the parser raise it, whatever the filter, also when the filter
    would have dropped the record; it raises [OverflowError] exactly when
    every line parses and the average of some retained type is beyond the
    range of a float; and it raises no other error. *)
Theorem errors_of_a_run (lines : list string) (ft : option string) :
  (process_gff lines ft = Raise ValueError
   <-> exists line, line ∈ lines /\ parse_gff_line line = Raise ValueError)
  /\ (process_gff lines ft = Raise OverflowError
      <-> exists fs t,
            read_features lines ft = Ok fs
            /\ lengths_of t fs <> []
            /\ average (lengths_of t fs) = Raise OverflowError)
  /\ (forall e, process_gff lines ft = Raise e ->
                e = ValueError \/ e = OverflowError).
Proof.
  rewrite !process_gff_statistics. split; [| split].
  - split.
    + destruct (read_features lines ft) as [fs | e] eqn:E; simpl.
      * by intros [[=] _]%statistics_raise.
      * intros [= ->]. by eapply read_features_raise_line.
    + intros (line & Hin & Hline).
      by rewrite (read_features_bad_line lines ft line Hin Hline).
  - split.
    + destruct (read_features lines ft) as [fs | e] eqn:E; simpl.
      * intros [_ (t & Hne & Ht)]%statistics_raise. by exists fs, t.
      * intros [= ->]. by apply read_features_raise in E.
    + intros (fs & t & -> & Hne & Ht). simpl.
      destruct (statistics fs) as [r | e] eqn:E.
      * exfalso. unfold statistics in E.
        destruct (avg_lengths (lengths_by_type fs)) as [avg | e] eqn:Ea;
          [| done].
        pose proof (avg_lengths_ok _ _ Ea t) as Hav.
        rewrite lengths_by_type_lookup in Hav.
        destruct (lengths_of t fs) as [| l ls]; [done |].
        destruct Hav as (x & Hx & _). congruence.
      * by apply statistics_raise in E as [-> _].
  - intros e. destruct (read_features lines ft) as [fs | e1] eqn:E; simpl.
    + intros [-> _]%statistics_raise. by right.
    + intros [= <-]. left. by eapply read_features_raise.
Qed.

Lemma errors_of_a_run_witness :
  process_gff [gene_100_200; bad_start] (Some "gene") = Raise ValueError
  /\ process_gff [huge_reversed] None = Raise OverflowError.
Proof.
  split.
  - destruct (errors_of_a_run [gene_100_200; bad_start] (Some "gene"))
      as (Hvalue & _ & _).
    apply Hvalue. exists bad_start.
    split; [apply list_elem_of_further, list_elem_of_here | reflexivity].
  - destruct (errors_of_a_run [huge_reversed] None) as (_ & Hover & _).
    apply Hover.
    exists [mk_record "NC_000001" "test" "gene" 0 (- 10 ^ 400) "." "+" "."
              "ID=g"], "gene".
    split; [vm_compute; reflexivity |].
    split; [vm_compute; discriminate | vm_compute; reflexivity].
Defined.

(** ** Filtering, seen from the file *)

Lemma filter_absent (key : gff_record -> string) k (fs : list gff_record) :
  k ∉ key <$> fs -> filter (fun f => key f = k) fs = [].
Proof.
  intros Hno. apply (count_where_zero key k fs) in Hno.
  unfold count_where, len in Hno. apply nil_length_inv. lia.
Qed.

(** X9. Filtering on a type that no record has gives the empty statistics:
    when every line parses, the run returns a total of 0 and four empty
    mappings, whatever the other records are. *)
Theorem filter_on_absent_type (lines : list string) (t : string)
  (fs : list gff_record) :
  read_features lines None = Ok fs ->
  t ∉ feature <$> fs ->
  process_gff lines (Some t) = Ok empty_stats.
Proof.
  intros Hread Hno. rewrite process_gff_statistics.
  rewrite (read_features_filter lines t fs Hread). simpl.
  by rewrite (filter_absent feature t fs Hno).
Qed.

Lemma filter_on_absent_type_witness :
  process_gff three_strands (Some "exon") = Ok empty_stats.
Proof.
  apply (filter_on_absent_type three_strands "exon"
           [ mk_record "NC_000001" "test" "gene" 100 200 "." "+" "."
               "ID=test1";
             mk_record "NC_000001" "test" "gene" 300 400 "." "-" "."
               "ID=test2";
             mk_record "NC_000001" "test" "CDS" 100 150 "." "+" "0"
               "ID=test3" ]).
  - vm_compute. reflexivity.
  - intros Hin. vm_compute in Hin.
    repeat (apply elem_of_cons in Hin as [Hin | Hin]; [discriminate |]).
    by apply elem_of_nil in Hin.
Defined.

Lemma read_features_prefilter lines t fs :
  read_features lines None = Ok fs ->
  read_features (filter (fun line => line_has_type t line = true) lines) None
  = Ok (filter (fun f => feature f = t) fs).
Proof.
  revert fs. induction lines as [| line lines IH]; intros fs Hread.
  - rewrite read_features_nil in Hread. by injection Hread as <-.
  - rewrite read_features_cons in Hread.
    destruct (parse_gff_line line) as [p | e] eqn:Ep; simpl in Hread;
      [| done].
    destruct (read_features lines None) as [rest | e]; simpl in Hread;
      [| done].
    injection Hread as <-. specialize (IH rest eq_refl).
    assert (line_has_type t line
            = match p with
              | Some p => bool_decide (feature p = t)
              | None => false
              end) as Htype by (unfold line_has_type; by rewrite Ep).
    rewrite filter_cons. destruct p as [p |]; simpl retain.
    + destruct (decide (feature p = t)) as [Ht | Ht].
      * rewrite decide_True
          by (rewrite Htype; by apply bool_decide_eq_true_2).
        rewrite read_features_cons, Ep, IH. simpl.
        by rewrite (filter_cons_True _ p rest Ht).
      * rewrite decide_False
          by (rewrite Htype, bool_decide_eq_false_2; done).
        by rewrite (filter_cons_False _ p rest Ht).
    + rewrite decide_False by (by rewrite Htype). exact IH.
Qed.

(** X10. When every line of a file parses, running with a filter on [t] is
    running without a filter on the file reduced to the lines whose record
    has type [t]. *)
Theorem filter_is_prefilter (lines : list string) (t : string)
  (fs : list gff_record) :
  read_features lines None = Ok fs ->
  process_gff lines (Some t)
  = process_gff (filter (fun line => line_has_type t line = true) lines) None.
Proof.
  intros Hread. rewrite !process_gff_statistics.
  by rewrite (read_features_filter lines t fs Hread),
    (read_features_prefilter lines t fs Hread).
Qed.

Lemma filter_is_prefilter_witness :
  process_gff three_strands (Some "gene")
  = process_gff
      (filter (fun line => line_has_type "gene" line = true) three_strands)
      None.
Proof.
  apply (filter_is_prefilter three_strands "gene"
           [ mk_record "NC_000001" "test" "gene" 100 200 "." "+" "."
               "ID=test1";
             mk_record "NC_000001" "test" "gene" 300 400 "." "-" "."
               "ID=test2";
             mk_record "NC_000001" "test" "CDS" 100 150 "." "+" "0"
               "ID=test3" ]).
  vm_compute. reflexivity.
Defined.

(** ** The exponent of a quotient *)

Lemma ratio_log2_not_below n d :
  0 < n -> 0 < d -> ~ below n d (ratio_log2 n d).
Proof.
  intros Hn Hd. unfold ratio_log2.
  pose proof (Z.log2_spec n Hn) as [Hn1 Hn2].
  pose proof (Z.log2_spec d Hd) as [Hd1 Hd2].
  pose proof (Z.log2_nonneg n) as HL. pose proof (Z.log2_nonneg d) as HM.
  set (L := Z.log2 n) in *. set (M := Z.log2 d) in *.
  destruct (shift_ratio n d (L - M)) as [a b] eqn:E.
  destruct (Z.ltb_spec a b) as [Hab | Hab].
  - unfold below. destruct (Z.leb_spec 0 (L - M - 1)).
    + replace L with (Z.succ M + (L - M - 1)) in Hn1 by lia.
      rewrite pow2_split in Hn1 by lia.
      pose proof (pow2_pos (L - M - 1)). nia.
    + replace (Z.succ M) with (L + - (L - M - 1)) in Hd2 by lia.
      rewrite pow2_split in Hd2 by lia.
      pose proof (pow2_pos (- (L - M - 1))). nia.
  - unfold below. unfold shift_ratio in E.
    destruct (0 <=? L - M); injection E as <- <-; lia.
Qed.

Lemma ratio_log2_unique n d x :
  0 < n -> 0 < d -> ~ below n d x -> below n d (x + 1) ->
  ratio_log2 n d = x.
Proof.
  intros Hn Hd Hlow Hup.
  pose proof (ratio_log2_not_below n d Hn Hd) as Hlow'.
  pose proof (ratio_log2_below n d Hn Hd) as Hup'.
  destruct (Z.lt_trichotomy (ratio_log2 n d) x) as [Hlt | [Heq | Hgt]];
    [| done |].
  - exfalso. apply Hlow.
    apply (below_mono n d (ratio_log2 n d + 1) x); [done | done | lia | done].
  - exfalso. apply Hlow'.
    apply (below_mono n d (x + 1) (ratio_log2 n d)); [done | done | lia | done].
Qed.

Lemma round_half_even_exact q b : 0 < b -> round_half_even (q * b) b = q.
Proof.
  intros Hb. unfold round_half_even.
  rewrite Z.div_mul, Z.mod_mul by lia.
  destruct (Z.compare_spec (2 * 0) b); lia.
Qed.

Lemma log2_small L : 0 < L < 2 ^ 53 -> 0 <= Z.log2 L <= 52.
Proof.
  intros [H0 H53]. split; [apply Z.log2_nonneg |].
  assert (Z.log2 L < 53); [| lia].
  apply Z.log2_lt_pow2; lia.
Qed.

Lemma small_mantissa L :
  0 < L < 2 ^ 53 ->
  2 ^ 52 <= L * 2 ^ (52 - Z.log2 L) < 2 ^ 53.
Proof.
  intros HL. pose proof (log2_small L HL) as Hlog.
  pose proof (Z.log2_spec L (proj1 HL)) as [H1 H2].
  pose proof (pow2_pos (52 - Z.log2 L)).
  replace (2 ^ 52) with (2 ^ (Z.log2 L + (52 - Z.log2 L))) at 1
    by (f_equal; lia).
  replace (2 ^ 53) with (2 ^ (Z.succ (Z.log2 L) + (52 - Z.log2 L)))
    by (f_equal; lia).
  rewrite !pow2_split by lia. nia.
Qed.

(** A quotient that is an integer below [2 ^ 53] is not rounded. *)
Lemma round_ratio_exact s L d :
  0 < L < 2 ^ 53 -> 0 < d ->
  round_ratio s (L * d) d
  = S754_finite s (Z.to_pos (L * 2 ^ (52 - Z.log2 L))) (Z.log2 L - 52).
Proof.
  intros HL Hd. pose proof (log2_small L HL) as Hlog.
  pose proof (Z.log2_spec L (proj1 HL)) as [H1 H2].
  pose proof (small_mantissa L HL) as Hm.
  assert (ratio_log2 (L * d) d = Z.log2 L) as Hex.
  { apply ratio_log2_unique; [nia | done | |].
    - unfold below. destruct (Z.leb_spec 0 (Z.log2 L)); [nia | lia].
    - unfold below. destruct (Z.leb_spec 0 (Z.log2 L + 1)); [| lia].
      replace (Z.log2 L + 1) with (Z.succ (Z.log2 L)) by lia. nia. }
  unfold round_ratio. rewrite Hex.
  change float_prec with 53. change float_emin with (-1074).
  change (53 - 1) with 52.
  rewrite Z.max_l by lia.
  assert (shift_ratio (L * d) d (Z.log2 L - 52)
          = ((L * 2 ^ (52 - Z.log2 L)) * d, d) \/
          shift_ratio (L * d) d (Z.log2 L - 52)
          = ((L * 2 ^ (52 - Z.log2 L)) * (d * 2 ^ 0), d * 2 ^ 0)) as Hshift.
  { unfold shift_ratio. destruct (Z.leb_spec 0 (Z.log2 L - 52)).
    - right. replace (Z.log2 L - 52) with 0 by lia.
      replace (52 - Z.log2 L) with 0 by lia. f_equal. simpl. lia.
    - left. replace (- (Z.log2 L - 52)) with (52 - Z.log2 L) by lia.
      f_equal. lia. }
  assert (let '(a, b) := shift_ratio (L * d) d (Z.log2 L - 52) in
          round_half_even a b = L * 2 ^ (52 - Z.log2 L)) as Hround.
  { destruct Hshift as [-> | ->]; apply round_half_even_exact; simpl; lia. }
  destruct (shift_ratio (L * d) d (Z.log2 L - 52)) as [a b].
  rewrite Hround.
  destruct (L * 2 ^ (52 - Z.log2 L)) as [| m | m] eqn:Em; [lia | | lia].
  destruct (Z.eqb_spec (Z.pos m) (2 ^ 53)); [lia |].
  unfold finite_or_inf. change (float_emax - float_prec) with 971.
  destruct (Z.leb_spec (Z.log2 L - 52) 971); [reflexivity | lia].
Qed.

Lemma float_of_small_int_eq L :
  L <> 0 ->
  float_of_small_int L
  = S754_finite (L <? 0)
      (Z.to_pos (Z.abs L * 2 ^ (52 - Z.log2 (Z.abs L))))
      (Z.log2 (Z.abs L) - 52).
Proof.
  intros HL.
  replace (52 - Z.log2 (Z.abs L)) with (- (Z.log2 (Z.abs L) - 52)) by lia.
  by destruct L.
Qed.

Lemma int_truediv_exact L n :
  Z.abs L < 2 ^ 53 -> 0 < n ->
  int_truediv (L * n) n = Ok (float_of_small_int L).
Proof.
  intros HL Hn. unfold int_truediv.
  destruct (Z.eqb_spec n 0); [lia |].
  destruct (Z.eqb_spec (L * n) 0) as [H0 | H0].
  - assert (L = 0) as -> by nia.
    by destruct (Z.ltb_spec n 0); [lia |].
  - assert (L <> 0) as HL0 by nia.
    rewrite float_of_small_int_eq by done.
    rewrite Z.abs_mul, (Z.abs_eq n) by lia.
    rewrite round_ratio_exact by lia. simpl.
    do 2 f_equal.
    destruct (Z.ltb_spec (L * n) 0), (Z.ltb_spec n 0), (Z.ltb_spec L 0);
      try lia; try nia; done.
Qed.

Lemma float_round_exact L :
  Z.abs L < 2 ^ 53 ->
  float_round (float_of_small_int L) 1 = Ok (float_of_small_int L).
Proof.
  intros HL. destruct (decide (L = 0)) as [-> | HL0]; [done |].
  rewrite float_of_small_int_eq by done.
  assert (0 < Z.abs L < 2 ^ 53) as Habs by lia.
  pose proof (log2_small _ Habs) as Hlog.
  pose proof (small_mantissa _ Habs) as Hm.
  unfold float_round. change (10 ^ Z.of_nat 1) with 10.
  rewrite Z2Pos.id by lia.
  set (m := Z.abs L * 2 ^ (52 - Z.log2 (Z.abs L))) in *.
  assert (shift_ratio (m * 10) 1 (- (Z.log2 (Z.abs L) - 52))
          = ((Z.abs L * 10) * (1 * 2 ^ (52 - Z.log2 (Z.abs L))),
             1 * 2 ^ (52 - Z.log2 (Z.abs L)))) as ->.
  { unfold shift_ratio.
    destruct (Z.leb_spec 0 (- (Z.log2 (Z.abs L) - 52))); [| lia].
    replace (- (Z.log2 (Z.abs L) - 52)) with (52 - Z.log2 (Z.abs L)) by lia.
    f_equal. unfold m. lia. }
  pose proof (pow2_pos (52 - Z.log2 (Z.abs L))).
  rewrite round_half_even_exact by lia.
  destruct (Z.eqb_spec (Z.abs L * 10) 0); [lia |].
  by rewrite round_ratio_exact by lia.
Qed.

Example float_of_small_int_is_float :
  Forall (fun n => float_of_small_int n = float_of_int n)
    [0; 1; -1; 5; 101; -4; 580076; 2 ^ 52; 2 ^ 53 - 1; - (2 ^ 53 - 1)]
  /\ float_of_small_int 101 = float_of_decimal 1010 1.
Proof. split; [repeat constructor | reflexivity]. Qed.

Lemma sum_constant L ls :
  Forall (fun x => x = L) ls -> sum ls = L * len ls.
Proof.
  unfold len. induction 1 as [| x l -> Hl IH]; [unfold sum; simpl; lia |].
  rewrite sum_cons, IH. simpl length. lia.
Qed.

Lemma average_constant L ls :
  ls <> [] -> Forall (fun x => x = L) ls -> Z.abs L < 2 ^ 53 ->
  average ls = Ok (float_of_small_int L).
Proof.
  intros Hne Hall HL. unfold average.
  rewrite (sum_constant L ls Hall).
  rewrite int_truediv_exact; [| done |].
  - simpl. by apply float_round_exact.
  - pose proof (len_nonempty ls Hne). unfold len in *. lia.
Qed.

(** X11. A type whose retained records all have the same length [L], below
    [2 ^ 53] in magnitude, has exactly the float of [L] as its average:
    neither the division nor the rounding to one decimal changes it. In
    particular a type with a single record has the length of that record as
    its average. *)
Theorem constant_length_average (lines : list string) (ft : option string)
  (r : gff_stats) (fs : list gff_record) (t : string) (L : Z) :
  process_gff lines ft = Ok r ->
  read_features lines ft = Ok fs ->
  (exists f, f ∈ fs /\ feature f = t) ->
  (forall f, f ∈ fs -> feature f = t -> calculate_length f = L) ->
  Z.abs L < 2 ^ 53 ->
  avg_length r !! t = Some (float_of_small_int L).
Proof.
  intros (fs' & avg & Hread & Havg & ->)%process_gff_ok_inv Hfs Hex Hall HL.
  rewrite Hread in Hfs. injection Hfs as ->. simpl.
  pose proof (avg_lengths_ok _ _ Havg t) as Ht.
  rewrite lengths_by_type_lookup in Ht.
  assert (lengths_of t fs <> []) as Hne.
  { destruct Hex as (f & Hf & <-). intros E.
    pose proof (length_in_lengths_of f fs Hf) as Hin. rewrite E in Hin.
    by apply elem_of_nil in Hin. }
  assert (Forall (fun x => x = L) (lengths_of t fs)) as Hconst.
  { apply Forall_forall. intros x Hx. unfold lengths_of in Hx.
    apply list_elem_of_fmap in Hx as (f & -> & Hf).
    apply list_elem_of_filter in Hf as [Hft Hf]. by apply Hall. }
  pose proof (average_constant L _ Hne Hconst HL) as Hav.
  destruct (lengths_of t fs) as [| l ls]; [done |].
  destruct Ht as (x & Hx & ->). congruence.
Qed.

Lemma constant_length_average_witness :
  avg_length
    {| total_features := 1;
       by_type := {[ "gene" := 1 ]};
       avg_length := {[ "gene" := float_of_decimal 1010 1 ]};
       strand_distribution := {[ "+" := 1 ]} |} !! "gene"
  = Some (float_of_small_int 101).
Proof.
  apply (constant_length_average [gene_100_200] None _
           [ mk_record "NC_000001" "test" "gene" 100 200 "." "+" "."
               "ID=test1" ] "gene" 101).
  - vm_compute. reflexivity.
  - vm_compute. reflexivity.
  - eexists. split; [apply list_elem_of_here | reflexivity].
  - intros f Hf _. apply elem_of_cons in Hf as [-> | Hf]; [reflexivity |].
    by apply elem_of_nil in Hf.
  - vm_compute. reflexivity.
Defined.

(** ** Averages of positive lengths *)

Lemma not_below_shift n d e a b :
  0 < n -> 0 < d -> shift_ratio n d e = (a, b) ->
  ~ below n d (e + 52) -> 0 < b /\ 2 ^ 52 * b <= a.
Proof.
  intros Hn Hd. unfold shift_ratio, below.
  destruct (Z.leb_spec 0 e); intros [= <- <-].
  - destruct (Z.leb_spec 0 (e + 52)); [| lia].
    rewrite (pow2_split e 52) by lia. pose proof (pow2_pos e). nia.
  - pose proof (pow2_pos (- e)).
    destruct (Z.leb_spec 0 (e + 52)).
    + replace (2 ^ 52) with (2 ^ ((e + 52) + - e)) by (f_equal; lia).
      rewrite (pow2_split (e + 52) (- e)) by lia.
      pose proof (pow2_pos (e + 52)). nia.
    + replace (- e) with (- (e + 52) + 52) by lia.
      rewrite (pow2_split (- (e + 52)) 52) by lia.
      pose proof (pow2_pos (- (e + 52))). nia.
Qed.

Lemma round_half_even_lower a b K :
  0 < b -> K * b <= a -> K <= round_half_even a b.
Proof.
  intros Hb Hle. unfold round_half_even.
  assert (K <= a / b) by (apply Z.div_le_lower_bound; lia).
  destruct (2 * (a mod b) ?= b); [destruct (Z.even (a / b)) | |]; lia.
Qed.

Lemma ratio_log2_nonneg n d : 0 < d <= n -> 0 <= ratio_log2 n d.
Proof.
  intros [Hd Hn].
  pose proof (ratio_log2_below n d ltac:(lia) Hd) as Hup.
  destruct (Z.le_gt_cases 0 (ratio_log2 n d)) as [| Hneg]; [done |].
  exfalso.
  assert (below n d 0) as H0
    by (apply (below_mono n d (ratio_log2 n d + 1) 0);
        [lia | lia | lia | done]).
  unfold below in H0. simpl in H0. lia.
Qed.

(** A quotient of at least 1 rounds to a float of at least 1, or to an
    infinity. *)
Lemma round_ratio_ge_one n d :
  0 < d <= n ->
  is_infinity (round_ratio false n d) = false ->
  float_ge_one (round_ratio false n d).
Proof.
  intros Hdn. assert (0 < n) as Hn by lia. destruct Hdn as [Hd Hdn].
  pose proof (ratio_log2_nonneg n d (conj Hd Hdn)) as Hex.
  pose proof (ratio_log2_not_below n d Hn Hd) as Hlow.
  unfold round_ratio.
  change float_prec with 53. change float_emin with (-1074).
  change (53 - 1) with 52.
  rewrite Z.max_l by lia.
  set (e := ratio_log2 n d - 52) in *.
  destruct (shift_ratio n d e) as [a b] eqn:E.
  destruct (not_below_shift n d e a b Hn Hd E) as [Hb Hab].
  { by replace (e + 52) with (ratio_log2 n d) by (unfold e; lia). }
  pose proof (round_half_even_lower a b (2 ^ 52) Hb Hab) as Hm.
  destruct (round_half_even a b) as [| m | m]; [lia | | lia].
  unfold finite_or_inf. change (float_emax - float_prec) with 971.
  destruct (Z.eqb_spec (Z.pos m) (2 ^ 53)).
  - destruct (e + 1 <=? 971); [| done]. intros _. simpl. split; [done | lia].
  - destruct (e <=? 971); [| done]. intros _. simpl. split; [done | lia].
Qed.

Lemma int_truediv_ge_one a b q :
  0 < b <= a -> int_truediv a b = Ok q -> float_ge_one q.
Proof.
  intros Hab. unfold int_truediv.
  destruct (Z.eqb_spec b 0); [lia |].
  destruct (Z.eqb_spec a 0); [lia |].
  destruct (Z.ltb_spec a 0); [lia |]. destruct (Z.ltb_spec b 0); [lia |].
  simpl xorb. rewrite !Z.abs_eq by lia.
  destruct (is_infinity (round_ratio false a b)) eqn:Einf; [done |].
  intros [= <-]. by apply round_ratio_ge_one.
Qed.

Lemma float_round_ge_one q x :
  float_ge_one q -> float_round q 1 = Ok x -> float_ge_one x.
Proof.
  destruct q as [| | | [|] m e]; try done. intros [Hm He].
  unfold float_round. change (10 ^ Z.of_nat 1) with 10.
  destruct (shift_ratio (Z.pos m * 10) 1 (- e)) as [a b] eqn:E.
  assert (0 < b /\ 10 * b <= a) as [Hb Hab].
  { unfold shift_ratio in E.
    destruct (Z.leb_spec 0 (- e)); injection E as <- <-.
    - pose proof (pow2_pos (- e)).
      pose proof (Z.pow_le_mono_r 2 (- e) 52). nia.
    - pose proof (pow2_pos (- - e)). nia. }
  pose proof (round_half_even_lower a b 10 Hb Hab) as Hk.
  destruct (Z.eqb_spec (round_half_even a b) 0); [lia |].
  destruct (is_infinity (round_ratio false (round_half_even a b) 10))
    eqn:Einf; [done |].
  intros [= <-]. apply round_ratio_ge_one; [lia | done].
Qed.

Lemma sum_at_least ls :
  Forall (fun x => 1 <= x) ls -> len ls <= sum ls.
Proof.
  unfold len. induction 1 as [| x l Hx Hl IH]; [unfold sum; simpl; lia |].
  rewrite sum_cons. simpl length. lia.
Qed.

Lemma float_ge_one_leb x :
  float_ge_one x ->
  SFleb (float_of_decimal 10 1) x = true.
Proof.
  destruct x as [| | | [|] m e]; try done. intros [Hm He].
  change (float_of_decimal 10 1)
    with (S754_finite false (2 ^ 52)%positive (-52)).
  unfold SFleb, SFcompare.
  destruct (Z.compare_spec (-52) e) as [Heq | Hlt | Hgt]; [| done | lia].
  change (Pos.compare_cont Eq (2 ^ 52)%positive m)
    with (Pos.compare (2 ^ 52)%positive m).
  destruct (Pos.compare_spec (2 ^ 52)%positive m) as [| | Hgt];
    [done | done |].
  change (Z.pos (2 ^ 52)%positive) with (2 ^ 52) in *. lia.
Qed.

(** X12. Where the coordinates are in order the averages are at least one:
    when every retained record of a type has [start <= end], the average of
    the type is a positive float, and [1.0 <= avg_length[t]] holds. *)
Theorem ordered_coordinates_average (lines : list string)
  (ft : option string) (r : gff_stats) (fs : list gff_record) (t : string)
  (x : float) :
  process_gff lines ft = Ok r ->
  read_features lines ft = Ok fs ->
  (forall f, f ∈ fs -> feature f = t -> start f <= end_ f) ->
  avg_length r !! t = Some x ->
  float_ge_one x
  /\ SFleb (float_of_decimal 10 1) x = true.
Proof.
  intros (fs' & avg & Hread & Havg & ->)%process_gff_ok_inv Hfs Hord.
  rewrite Hread in Hfs. injection Hfs as ->. simpl. intros Hx.
  pose proof (avg_lengths_ok _ _ Havg t) as Ht.
  rewrite lengths_by_type_lookup in Ht.
  assert (Forall (fun l => 1 <= l) (lengths_of t fs)) as Hpos.
  { apply Forall_forall. intros l Hl. unfold lengths_of in Hl.
    apply list_elem_of_fmap in Hl as (f & -> & Hf).
    apply list_elem_of_filter in Hf as [Hft Hf].
    specialize (Hord f Hf Hft). unfold calculate_length. lia. }
  pose proof (sum_at_least _ Hpos) as Hsum.
  destruct (lengths_of t fs) as [| l ls] eqn:E; [congruence |].
  destruct Ht as (y & Hy & Hlook).
  assert (y = x) as -> by congruence.
  unfold average in Hy.
  destruct (int_truediv (sum (l :: ls)) (len (l :: ls))) as [q | e] eqn:Eq;
    [| done].
  assert (float_ge_one q) as Hq.
  { apply (int_truediv_ge_one _ _ q) in Eq; [done |].
    unfold len in *. simpl length in *. lia. }
  assert (float_ge_one x) as Hge by (by apply (float_round_ge_one q x)).
  split; [done | by apply float_ge_one_leb].
Qed.

Lemma ordered_coordinates_average_witness :
  SFleb (float_of_decimal 10 1)
    (float_of_decimal 1010 1) = true.
Proof.
  apply (ordered_coordinates_average three_strands None three_strands_stats
           [ mk_record "NC_000001" "test" "gene" 100 200 "." "+" "."
               "ID=test1";
             mk_record "NC_000001" "test" "gene" 300 400 "." "-" "."
               "ID=test2";
             mk_record "NC_000001" "test" "CDS" 100 150 "." "+" "0"
               "ID=test3" ] "gene" (float_of_decimal 1010 1)).
  - vm_compute. reflexivity.
  - vm_compute. reflexivity.
  - intros f Hf _.
    repeat (apply elem_of_cons in Hf as [-> | Hf]; [simpl; lia |]).
    by apply elem_of_nil in Hf.
  - vm_compute. reflexivity.
Defined.

(** ** Bounds of the total *)

Lemma read_features_length lines ft fs :
  read_features lines ft = Ok fs -> (length fs <= length lines)%nat.
Proof.
  revert fs. induction lines as [| line lines IH]; intros fs.
  - rewrite read_features_nil. by intros [= <-].
  - rewrite read_features_cons.
    destruct (parse_gff_line line) as [p | e]; simpl; [| done].
    destruct (read_features lines ft) as [rest | e]; simpl; [| done].
    intros [= <-]. specialize (IH rest eq_refl). unfold retain.
    destruct p as [p |]; [destruct (keep ft p) |]; simpl; lia.
Qed.

(** X13. The total is bounded by the file: [total_features] is never
    negative and never more than the number of lines, and a run with a
    filter never counts more than the run without a filter over the same
    file. *)
Theorem total_is_bounded (lines : list string) (ft : option string)
  (r : gff_stats) :
  process_gff lines ft = Ok r ->
  0 <= total_features r <= len lines
  /\ forall r0, process_gff lines None = Ok r0 ->
                total_features r <= total_features r0.
Proof.
  intros (fs & avg & Hread & _ & ->)%process_gff_ok_inv. simpl.
  pose proof (read_features_length lines ft fs Hread) as Hlen.
  split; [unfold len; lia |].
  intros r0 (fs0 & avg0 & Hread0 & _ & ->)%process_gff_ok_inv. simpl.
  destruct ft as [t |].
  - rewrite (read_features_filter lines t fs0 Hread0) in Hread.
    injection Hread as <-. unfold len.
    pose proof (length_filter (fun f => feature f = t) fs0). lia.
  - rewrite Hread0 in Hread. injection Hread as <-. lia.
Qed.

Lemma total_is_bounded_witness :
  0 <= total_features three_strands_stats <= len three_strands.
Proof.
  apply (total_is_bounded three_strands None three_strands_stats).
  vm_compute. reflexivity.
Defined.
